(** * Mandala generator: prompt builder, frame compositor and session glue

    A shallow embedding of [app.py].  Python values are modelled as follows:
    - [str] as [string]; a [dict] with string keys as [gmap string _];
    - a decoded PIL image as its mode, its size and its rows of pixels;
    - a raised exception as the [Raise] branch of [result];
    - the Streamlit script as a computation over the session state and the
      list of effects (widgets written, requests sent) it has produced. *)

From Stdlib Require Import ZArith String Ascii List Lia Bool.
From stdpp Require Import base option list strings gmap.

Local Open Scope string_scope.
Local Open Scope Z_scope.

(** ** Exceptions and fallible results *)

Inductive exn : Type :=
  | KeyError (key : string)
  | IndexError
  | ValueError (msg : string)
  | ServiceError (msg : string)      (* raised by openai / requests / PIL decoding *)
  | RerunException.                  (* raised by st.rerun() *)

(** [except Exception] catches every class deriving from [Exception];
    Streamlit's script-control exception derives from [BaseException]. *)
Definition is_Exception (e : exn) : bool :=
  match e with
  | RerunException => false
  | _ => true
  end.

(** [str(e)] *)
Definition str_exn (e : exn) : string :=
  match e with
  | KeyError k => "'" ++ k ++ "'"
  | IndexError => "list index out of range"
  | ValueError m => m
  | ServiceError m => m
  | RerunException => EmptyString
  end.

Inductive result (A : Type) : Type :=
  | Return (a : A)
  | Raise (e : exn).
Arguments Return {A} a.
Arguments Raise {A} e.

#[global] Instance result_ret : MRet result := fun A a => Return a.
#[global] Instance result_bind : MBind result := fun A B f m =>
  match m with
  | Return a => f a
  | Raise e => Raise e
  end.

(** [d[k]] on a dict: [KeyError] when the key is absent. *)
Definition getitem {V : Type} (d : gmap string V) (k : string) : result V :=
  match d !! k with
  | Some v => Return v
  | None => Raise (KeyError k)
  end.

(** ** Colours (PIL.ImageColor) *)

Definition hex_digit (c : ascii) : option Z :=
  let n := Z.of_nat (nat_of_ascii c) in
  if (48 <=? n) && (n <=? 57) then Some (n - 48)
  else if (97 <=? n) && (n <=? 102) then Some (n - 87)
  else if (65 <=? n) && (n <=? 70) then Some (n - 55)
  else None.

Definition hex_pair (hi lo : ascii) : option Z :=
  h ← hex_digit hi; l ← hex_digit lo; Some (16 * h + l).

(** [ImageColor.getrgb] on the seven-character form ["#rrggbb"], the only
    form the frame table contains. *)
Definition getrgb (color : string) : result (Z * Z * Z) :=
  match color with
  | String "#" (String r1 (String r0 (String g1 (String g0
      (String b1 (String b0 EmptyString)))))) =>
      match hex_pair r1 r0, hex_pair g1 g0, hex_pair b1 b0 with
      | Some r, Some g, Some b => Return (r, g, b)
      | _, _, _ => Raise (ValueError ("unknown color specifier: " ++ color))
      end
  | _ => Raise (ValueError ("unknown color specifier: " ++ color))
  end.

(** ** Raster images *)

Inductive mode : Type := RGB | RGBA.

(** A pixel is the list of its band values. *)
Definition pixel : Type := list Z.

Record Image : Type := mkImage {
  im_mode : mode;
  im_width : nat;
  im_height : nat;
  im_rows : list (list pixel)   (* row y, column x *)
}.

(** A decoded bitmap: at least one pixel, and [im_height] rows of
    [im_width] pixels. *)
Definition wf_image (im : Image) : bool :=
  (0 <? im_width im)%nat && (0 <? im_height im)%nat &&
  (length (im_rows im) =? im_height im)%nat &&
  forallb (fun row => (length row =? im_width im)%nat) (im_rows im).

Definition getpixel (im : Image) (x y : nat) : option pixel :=
  row ← im_rows im !! y; row !! x.

(** [ImageColor.getcolor]: the ink of a colour string in the image's mode. *)
Definition getcolor (color : string) (m : mode) : result pixel :=
  '(r, g, b) ← getrgb color;
  match m with
  | RGB => Return [r; g; b]
  | RGBA => Return [r; g; b; 255]
  end.

(** ** Drawing (PIL.ImageDraw) *)

Definition box : Type := (Z * Z * Z * Z)%type.

Definition in_box (b : box) (x y : nat) : bool :=
  let '(x0, y0, x1, y1) := b in
  (x0 <=? Z.of_nat x) && (Z.of_nat x <=? x1) &&
  (y0 <=? Z.of_nat y) && (Z.of_nat y <=? y1).

Definition fill_box (b : box) (ink : pixel) (rows : list (list pixel))
  : list (list pixel) :=
  imap (fun y row => imap (fun x p => if in_box b x y then ink else p) row) rows.

(** [ImageDraw.Draw(im).rectangle(xy, fill=color)]: both corners are
    inclusive, the box is clipped to the image, and a box whose corners
    are out of order is refused. *)
Definition rectangle (im : Image) (xy : box) (fill : string) : result Image :=
  ink ← getcolor fill (im_mode im);
  let '(x0, y0, x1, y1) := xy in
  if x1 <? x0 then Raise (ValueError "x1 must be greater than or equal to x0")
  else if y1 <? y0 then Raise (ValueError "y1 must be greater than or equal to y0")
  else Return (mkImage (im_mode im) (im_width im) (im_height im)
                 (fill_box xy ink (im_rows im))).

(** ** The frame compositor *)

Record frame_props : Type := mkFrame { frame_color : string; frame_width : Z }.

Definition frames : gmap string frame_props :=
  <["Classic Wood" := mkFrame "#8B4513" 40]>
  (<["Modern Black" := mkFrame "#1a1a1a" 30]>
  (<["Silver Metal" := mkFrame "#C0C0C0" 35]> ∅)).

Definition frame_options : list string :=
  ["Classic Wood"; "Modern Black"; "Silver Metal"].

Definition add_frame (image : Image) (frame_style : string) : result Image :=
  let framed_image := image in
  frame ← getitem frames frame_style;
  let width := frame_width frame in
  let color := frame_color frame in
  let img_width := Z.of_nat (im_width framed_image) in
  let img_height := Z.of_nat (im_height framed_image) in
  im1 ← rectangle framed_image (0, 0, img_width - 1, width) color;
  im2 ← rectangle im1 (0, img_height - width, img_width - 1, img_height - 1) color;
  im3 ← rectangle im2 (0, 0, width, img_height - 1) color;
  rectangle im3 (img_width - width, 0, img_width - 1, img_height - 1) color.

(** ** The prompt builder *)

Definition nl : string := String (ascii_of_nat 10) EmptyString.

(** [sep.join(l)] *)
Fixpoint join (sep : string) (l : list string) : string :=
  match l with
  | [] => EmptyString
  | [x] => x
  | x :: xs => x ++ sep ++ join sep xs
  end.

(** [str.isspace] on the ASCII range: tab to carriage return, the four
    separators 0x1c-0x1f and the space. *)
Definition is_space (c : ascii) : bool :=
  let n := nat_of_ascii c in
  ((9 <=? n) && (n <=? 13) || (28 <=? n) && (n <=? 32))%nat.

Fixpoint lstrip (s : string) : string :=
  match s with
  | EmptyString => EmptyString
  | String c s' => if is_space c then lstrip s' else s
  end.

Fixpoint rstrip (s : string) : string :=
  match s with
  | EmptyString => EmptyString
  | String c s' =>
      match rstrip s' with
      | EmptyString => if is_space c then EmptyString else String c EmptyString
      | r => String c r
      end
  end.

(** [s.strip()] *)
Definition strip (s : string) : string := rstrip (lstrip s).

Definition blue_shades : list string := ["dark blue"; "medium blue"; "light blue"].
Definition gray_shades : list string := ["dark gray"; "medium gray"; "light gray"].

Definition create_mandala_prompt (inspiration : string) : string :=
  let prompt :=
    nl ++
    "    Create a beautiful, detailed mandala art inspired by the word '"
      ++ inspiration ++ "'. " ++ nl ++
    "    The mandala should be centered, symmetrical, and intricate with a circular pattern." ++ nl ++
    "    Use EXACTLY 3 shades of blue (" ++ join ", " blue_shades ++ ") " ++ nl ++
    "    and 3 shades of gray (" ++ join ", " gray_shades ++ ") only." ++ nl ++
    "    The design should be spiritual and meditative with intricate patterns." ++ nl ++
    "    Include subtle elements that relate to '" ++ inspiration
      ++ "' in the mandala pattern." ++ nl ++
    "    Make it high-contrast against a white background so all details are clearly visible." ++ nl ++
    "    The mandala should be centered in the image with balanced composition." ++ nl ++
    "    "
  in strip prompt.

(** ** Timestamps and the download file name *)

Record datetime : Type := mkDatetime {
  year : Z; month : Z; day : Z; hour : Z; minute : Z; second : Z
}.

(** The ranges [datetime] objects are confined to. *)
Definition valid_datetime (d : datetime) : bool :=
  (1 <=? year d) && (year d <=? 9999) &&
  (1 <=? month d) && (month d <=? 12) &&
  (1 <=? day d) && (day d <=? 31) &&
  (0 <=? hour d) && (hour d <=? 23) &&
  (0 <=? minute d) && (minute d <=? 59) &&
  (0 <=? second d) && (second d <=? 59).

Definition digit (n : Z) : ascii := ascii_of_nat (48 + Z.to_nat (n mod 10)).

Definition zpad2 (n : Z) : string :=
  String (digit (n / 10)) (String (digit n) EmptyString).

Definition zpad4 (n : Z) : string :=
  String (digit (n / 1000)) (String (digit (n / 100)) (zpad2 n)).

(** One [strftime] directive; the year is zero-padded to four digits. *)
Definition directive (d : datetime) (c : ascii) : string :=
  if Ascii.eqb c "Y" then zpad4 (year d)
  else if Ascii.eqb c "m" then zpad2 (month d)
  else if Ascii.eqb c "d" then zpad2 (day d)
  else if Ascii.eqb c "H" then zpad2 (hour d)
  else if Ascii.eqb c "M" then zpad2 (minute d)
  else if Ascii.eqb c "S" then zpad2 (second d)
  else String "%" (String c EmptyString).

Fixpoint strftime (d : datetime) (fmt : string) : string :=
  match fmt with
  | EmptyString => EmptyString
  | String c rest =>
      if Ascii.eqb c "%" then
        match rest with
        | String k rest' => directive d k ++ strftime d rest'
        | EmptyString => String c EmptyString
        end
      else String c (strftime d rest)
  end.

(** The file name argument built at line 218. *)
Definition download_filename (inspiration : string) (now : datetime) : string :=
  "mandala_" ++ inspiration ++ "_" ++ strftime now "%Y%m%d_%H%M%S" ++ ".png".

Definition is_digit (c : ascii) : bool :=
  let n := nat_of_ascii c in ((48 <=? n) && (n <=? 57))%nat.

Fixpoint all_digits (s : string) : bool :=
  match s with
  | EmptyString => true
  | String c s' => is_digit c && all_digits s'
  end.

(** The shape [YYYYMMDD_HHMMSS]: eight digits, an underscore, six digits. *)
Definition is_timestamp (s : string) : bool :=
  (String.length s =? 15)%nat &&
  all_digits (substring 0 8 s) &&
  String.eqb (substring 8 1 s) "_" &&
  all_digits (substring 9 6 s).

(** ** Session state, effects and the script monad *)

Record session_state : Type := mkSession {
  mandala_image : option Image;
  framed_images : gmap string Image;
  selected_frame : string
}.

(** [st.session_state] before lines 124-129 have run: a key may be absent. *)
Record session_keys : Type := mkKeys {
  key_mandala_image : option (option Image);
  key_framed_images : option (gmap string Image);
  key_selected_frame : option string
}.

(** Lines 124-129: each absent key receives its default. *)
Definition init_session_state (k : session_keys) : session_state :=
  mkSession
    (match key_mandala_image k with Some v => v | None => None end)
    (match key_framed_images k with Some v => v | None => ∅ end)
    (match key_selected_frame k with Some v => v | None => "Classic Wood" end).

Definition new_session : session_state :=
  init_session_state (mkKeys None None None).

(** What a run of the script does to the outside: requests sent and
    widgets written.  [StImage] is the [st.image] call of lines 176-180 on a
    PIL image, [StImageUrl] the one of line 243 on a url, and
    [StDownloadLink] the [st.markdown] call of lines 215-222, whose body is
    the download anchor.  The other page furniture (style sheet, titles,
    headers, thumbnails, the details and instructions blocks, footer) and
    the spinner are left out. *)
Inductive event : Type :=
  | ImageCreate (api_key model prompt size quality : string) (n : Z)
  | HttpGet (url : string)
  | StError (msg : string)
  | StSuccess (msg : string)
  | StImage (img : Image) (caption : string)
  | StImageUrl (url caption : string)
  | StDownloadLink (body : string).

Definition M (A : Type) : Type :=
  session_state * list event -> result A * (session_state * list event).

#[global] Instance M_ret : MRet M := fun A a σ => (Return a, σ).
#[global] Instance M_bind : MBind M := fun A B f m σ =>
  match m σ with
  | (Return a, σ') => f a σ'
  | (Raise e, σ') => (Raise e, σ')
  end.

Definition raise {A : Type} (e : exn) : M A := fun σ => (Raise e, σ).

Definition lift {A : Type} (r : result A) : M A := fun σ => (r, σ).

Definition emit (ev : event) : M unit := fun σ => (Return tt, (σ.1, (σ.2 ++ [ev])%list)).

Definition get_session : M session_state := fun σ => (Return σ.1, σ).

Definition put_session (s : session_state) : M unit := fun σ => (Return tt, (s, σ.2)).

(** [try: body except Exception as e: handler e] *)
Definition try_except {A : Type} (body : M A) (handler : exn -> M A) : M A :=
  fun σ =>
    match body σ with
    | (Raise e, σ') => if is_Exception e then handler e σ' else (Raise e, σ')
    | r => r
    end.

(** [l[i]] on a list *)
Definition index {A : Type} (l : list A) (i : nat) : result A :=
  match l !! i with
  | Some a => Return a
  | None => Raise IndexError
  end.

(** ** The outside world of one script run *)

(** A service either answers or raises an [Exception] with a message. *)
Record world : Type := mkWorld {
  openai_Image_create :
    string -> string -> string + gmap string (list (gmap string string));
  requests_get : string -> string + string;
  Image_open : string -> string + Image;
  datetime_now : datetime
}.

Definition call {A : Type} (r : string + A) : M A :=
  match r with
  | inl msg => raise (ServiceError msg)
  | inr a => mret a
  end.

(** The widget values of one run. *)
Record inputs : Type := mkInputs {
  api_key : string;
  inspiration : string;
  generate_button : bool;
  select_button : nat -> bool
}.

(** Truth value of a [str]. *)
Definition truthy (s : string) : bool := negb (String.eqb s EmptyString).

(** ** The image provider client *)

(** The key stored in [openai.api_key] travels with the request, so the
    assignment and the request are one [ImageCreate] event. *)
Definition generate_mandala_image (w : world) (api_key prompt : string)
  : M (option Image) :=
  try_except
    (emit (ImageCreate api_key "dall-e-3" prompt "1024x1024" "standard" 1);;
     response ← call (openai_Image_create w api_key prompt);
     data ← lift (getitem response "data");
     first ← lift (index data 0);
     image_url ← lift (getitem first "url");
     emit (HttpGet image_url);;
     content ← call (requests_get w image_url);
     img ← call (Image_open w content);
     mret (Some img))
    (fun e =>
       emit (StError ("Error generating image: " ++ str_exn e));;
       mret None).

(** ** The script *)

(** [{frame: add_frame(image, frame) for frame in keys}] *)
Fixpoint framed_dict (image : Image) (keys : list string)
    (acc : gmap string Image) : result (gmap string Image) :=
  match keys with
  | [] => Return acc
  | frame :: rest =>
      v ← add_frame image frame;
      framed_dict image rest (<[frame := v]> acc)
  end.

(** Lines 151-168. *)
Definition sidebar (w : world) (inp : inputs) : M unit :=
  if generate_button inp && truthy (inspiration inp) && truthy (api_key inp) then
    let prompt := create_mandala_prompt (inspiration inp) in
    image ← generate_mandala_image w (api_key inp) prompt;
    match image with
    | Some image =>
        s ← get_session;
        put_session (mkSession (Some image) (framed_images s) (selected_frame s));;
        framed ← lift (framed_dict image frame_options ∅);
        s ← get_session;
        put_session (mkSession (mandala_image s) framed (selected_frame s));;
        emit (StSuccess "Mandala generated successfully!")
    | None => mret tt
    end
  else mret tt.

(** Lines 190-211: the three select buttons, in order. *)
Fixpoint frame_buttons (inp : inputs) (i : nat) (options : list string) : M unit :=
  match options with
  | [] => mret tt
  | frame :: rest =>
      (if select_button inp i then
         s ← get_session;
         put_session (mkSession (mandala_image s) (framed_images s) frame);;
         raise RerunException
       else mret tt);;
      frame_buttons inp (S i) rest
  end.

Definition dq : string := String (ascii_of_nat 34) EmptyString.

Section Script.

(** PNG encoding followed by base64, [img.save] and [base64.b64encode]. *)
Variable png_base64 : Image -> string.

Definition get_image_download_link (img : Image) (filename text : string) : string :=
  let img_str := png_base64 img in
  "<a href=" ++ dq ++ "data:file/png;base64," ++ img_str ++ dq
    ++ " download=" ++ dq ++ filename ++ dq ++ "><button style=" ++ dq
    ++ "background-color: #4c6eaf; color: white; padding: 0.5rem 1rem; border: none; border-radius: 5px; cursor: pointer; font-weight: bold;"
    ++ dq ++ ">" ++ text ++ "</button></a>".

(** The placeholder picture of line 243. *)
Definition placeholder : event :=
  StImageUrl
    "https://via.placeholder.com/800x800?text=Your+Mandala+Will+Appear+Here"
    "Example mandala placeholder".

(** Lines 171-243. *)
Definition main_content (w : world) (inp : inputs) : M unit :=
  s ← get_session;
  match mandala_image s with
  | Some _ =>
      shown ← lift (getitem (framed_images s) (selected_frame s));
      emit (StImage shown
              (dq ++ inspiration inp ++ dq ++ " Mandala with "
                 ++ selected_frame s ++ " frame"));;
      frame_buttons inp 0 frame_options;;
      s ← get_session;
      img ← lift (getitem (framed_images s) (selected_frame s));
      emit (StDownloadLink
              (get_image_download_link img
                 (download_filename (inspiration inp) (datetime_now w))
                 "Download Mandala"))
  | None => emit placeholder
  end.

Definition script (w : world) (inp : inputs) : M unit :=
  sidebar w inp;; main_content w inp.

(** One run of the script from session state [s]; the state it leaves
    persists whether the run ends normally or by an exception. *)
Definition run_script (w : world) (inp : inputs) (s : session_state)
  : result unit * (session_state * list event) :=
  script w inp (s, []).

Definition state_after (w : world) (inp : inputs) (s : session_state)
  : session_state := (run_script w inp s).2.1.

Definition trace_of (w : world) (inp : inputs) (s : session_state)
  : list event := (run_script w inp s).2.2.

(** The decoder hands out decoded bitmaps only. *)
Definition decodes_bitmaps (w : world) : Prop :=
  forall content img, Image_open w content = inr img -> wf_image img = true.

(** The session states between runs, as long as every run's decoder
    returns bitmaps; [run_reachable] below drops that premise. *)
Inductive reachable : session_state -> Prop :=
  | reachable_new : reachable new_session
  | reachable_run w inp s :
      decodes_bitmaps w -> reachable s -> reachable (state_after w inp s).

Definition white_image (w h : nat) : Image :=
  mkImage RGB w h (replicate h (replicate w [255; 255; 255])).

(** ** Vocabulary of the properties *)

(** The four rectangles of a frame of width [bw] on a [W] x [H] image. *)
Definition top_box (W H : nat) (bw : Z) : box := (0, 0, Z.of_nat W - 1, bw).
Definition bottom_box (W H : nat) (bw : Z) : box :=
  (0, Z.of_nat H - bw, Z.of_nat W - 1, Z.of_nat H - 1).
Definition left_box (W H : nat) (bw : Z) : box := (0, 0, bw, Z.of_nat H - 1).
Definition right_box (W H : nat) (bw : Z) : box :=
  (Z.of_nat W - bw, 0, Z.of_nat W - 1, Z.of_nat H - 1).

Definition in_border (W H : nat) (bw : Z) (x y : nat) : bool :=
  in_box (top_box W H bw) x y || in_box (bottom_box W H bw) x y ||
  in_box (left_box W H bw) x y || in_box (right_box W H bw) x y.

(** The configured colour, width and parsed colour of each style. *)
Definition frame_table : list (string * string * Z * (Z * Z * Z)) :=
  [("Classic Wood", "#8B4513", 40, (139, 69, 19));
   ("Modern Black", "#1a1a1a", 30, (26, 26, 26));
   ("Silver Metal", "#C0C0C0", 35, (192, 192, 192))].

Definition ink_of (m : mode) (rgb : Z * Z * Z) : pixel :=
  let '(r, g, b) := rgb in
  match m with RGB => [r; g; b] | RGBA => [r; g; b; 255] end.

(** Decimal value of a string of digits. *)
Definition digits_value (s : string) : Z :=
  fold_left (fun acc c => 10 * acc + (Z.of_nat (nat_of_ascii c) - 48))
    (list_ascii_of_string s) 0.

(** From year 1000 on, [%Y] has four digits on every platform. *)
Definition four_digit_clock (d : datetime) : bool :=
  valid_datetime d && (1000 <=? year d).

(** Requests sent to the outside, as opposed to widgets written. *)
Definition is_request (ev : event) : bool :=
  match ev with
  | ImageCreate _ _ _ _ _ _ | HttpGet _ => true
  | _ => false
  end.

Definition is_StError (ev : event) : bool :=
  match ev with
  | StError _ => true
  | _ => false
  end.

(** [d] holds one framed image per style, each made from [img]. *)
Definition framed_from (img : Image) (d : gmap string Image) : Prop :=
  dom d = list_to_set frame_options /\
  forall frame, In frame frame_options ->
    exists framed, add_frame img frame = Return framed /\ d !! frame = Some framed.

Definition session_inv (s : session_state) : Prop :=
  In (selected_frame s) frame_options /\
  match mandala_image s with
  | None => framed_images s = ∅
  | Some img => wf_image img = true /\ framed_from img (framed_images s)
  end.

(** The guard of line 151. *)
Definition attempts_generation (inp : inputs) : bool :=
  generate_button inp && truthy (inspiration inp) && truthy (api_key inp).

Definition create_event (inp : inputs) : event :=
  ImageCreate (api_key inp) "dall-e-3" (create_mandala_prompt (inspiration inp))
    "1024x1024" "standard" 1.

(** Events a re-rendering of the page may produce: no request, no error. *)
Definition is_display (ev : event) : bool :=
  negb (is_request ev) && negb (is_StError ev).

(** ** Sample data *)

Definition sample_image : Image := white_image 100 90.

Definition small_image : Image := white_image 4 3.

Definition sample_clock : datetime := mkDatetime 2025 3 9 7 5 0.

Definition sample_inputs : inputs :=
  mkInputs "sk-test" "love" true (fun _ => false).

(** The second select button (Modern Black) pressed, nothing else. *)
Definition select_inputs : inputs :=
  mkInputs "sk-test" "love" false (fun j => Nat.eqb j 1).

(** The trigger pressed with a word but no credential. *)
Definition keyless_inputs : inputs :=
  mkInputs EmptyString "love" true (fun _ => false).

Definition failing_world : world :=
  mkWorld (fun _ _ => inl "quota exceeded")
          (fun _ => inl "connection refused")
          (fun _ => inl "cannot identify image file")
          sample_clock.

Definition working_world : world :=
  mkWorld (fun _ _ => inr {[ "data" := [ {[ "url" := "https://example.org/m.png" ]} ] ]})
          (fun _ => inr "PNG")
          (fun _ => inr small_image)
          sample_clock.

(** A stand-in for the PNG and base64 encoders. *)
Definition no_encoding : Image -> string := fun _ => EmptyString.

(** The session after one successful generation in a new session. *)
Definition sample_state : session_state :=
  state_after working_world sample_inputs new_session.

(** ** Vocabulary of the further properties *)

Definition bands (m : mode) : nat :=
  match m with RGB => 3%nat | RGBA => 4%nat end.

(** A pixel of mode [m]: one byte per band. *)
Definition valid_pixel (m : mode) (p : pixel) : bool :=
  (length p =? bands m)%nat && forallb (fun v => (0 <=? v) && (v <=? 255)) p.

(** The three fixed pieces of the prompt around the two slots. *)
Definition prompt_head : string :=
  "Create a beautiful, detailed mandala art inspired by the word '".

Definition prompt_mid : string :=
  "'. " ++ nl ++
  "    The mandala should be centered, symmetrical, and intricate with a circular pattern." ++ nl ++
  "    Use EXACTLY 3 shades of blue (" ++ join ", " blue_shades ++ ") " ++ nl ++
  "    and 3 shades of gray (" ++ join ", " gray_shades ++ ") only." ++ nl ++
  "    The design should be spiritual and meditative with intricate patterns." ++ nl ++
  "    Include subtle elements that relate to '".

Definition prompt_tail : string :=
  "' in the mandala pattern." ++ nl ++
  "    Make it high-contrast against a white background so all details are clearly visible." ++ nl ++
  "    The mandala should be centered in the image with balanced composition.".

(** The image a successful fetch and decode of [url] gives, if any. *)
Definition fetched_image (w : world) (url : string) : option Image :=
  match requests_get w url with
  | inr content =>
      match Image_open w content with
      | inr img => Some img
      | inl _ => None
      end
  | inl _ => None
  end.

(** A service answer without the ["data"] key. *)
Definition dataless_world : world :=
  mkWorld (fun _ _ => inr ∅)
          (fun _ => inr "PNG")
          (fun _ => inr small_image)
          sample_clock.

(** Events of the main content area: the image shown and the link. *)
Definition is_rendering (ev : event) : bool :=
  match ev with
  | StImage _ _ | StImageUrl _ _ | StDownloadLink _ => true
  | _ => false
  end.

(** The caption of line 178. *)
Definition caption_of (inp : inputs) (frame : string) : string :=
  dq ++ inspiration inp ++ dq ++ " Mandala with " ++ frame ++ " frame".

(** A run of the script in which no button is pressed. *)
Definition idle_inputs : inputs :=
  mkInputs "sk-test" "calm" false (fun _ => false).

(** ** Base64 ([base64.b64encode], then [.decode()]) *)

Definition b64_alphabet : string :=
  "ABCDEFGHIJKLMNOPQRSTUVWXYZabcdefghijklmnopqrstuvwxyz0123456789+/".

Definition b64_char (n : Z) : ascii :=
  match String.get (Z.to_nat n) b64_alphabet with
  | Some c => c
  | None => "="%char
  end.

(** Three bytes make four characters; one or two left-over bytes are
    padded with [=]. *)
Fixpoint b64encode (bs : list Z) : string :=
  match bs with
  | [] => EmptyString
  | [a] =>
      let n := a * 65536 in
      String (b64_char (n / 262144)) (String (b64_char (n / 4096 mod 64))
        (String "=" (String "=" EmptyString)))
  | [a; b] =>
      let n := a * 65536 + b * 256 in
      String (b64_char (n / 262144)) (String (b64_char (n / 4096 mod 64))
        (String (b64_char (n / 64 mod 64)) (String "=" EmptyString)))
  | a :: b :: c :: rest =>
      let n := a * 65536 + b * 256 + c in
      String (b64_char (n / 262144)) (String (b64_char (n / 4096 mod 64))
        (String (b64_char (n / 64 mod 64)) (String (b64_char (n mod 64))
          (b64encode rest))))
  end.

Definition is_byte (b : Z) : bool := (0 <=? b) && (b <? 256).

(** Position of a character in the alphabet. *)
Definition b64_index (c : ascii) : option Z :=
  let k := Z.of_nat (nat_of_ascii c) in
  if (65 <=? k) && (k <=? 90) then Some (k - 65)
  else if (97 <=? k) && (k <=? 122) then Some (k - 71)
  else if (48 <=? k) && (k <=? 57) then Some (k + 4)
  else if k =? 43 then Some 62
  else if k =? 47 then Some 63
  else None.

Definition is_b64_char (c : ascii) : bool :=
  match b64_index c with
  | Some _ => true
  | None => Ascii.eqb c "="
  end.

(** Reading an encoded string back, used to show that encoding loses
    nothing. *)
Fixpoint b64_parse (s : string) : option (list Z) :=
  match s with
  | EmptyString => Some []
  | String c1 (String c2 (String c3 (String c4 rest))) =>
      match b64_index c1, b64_index c2 with
      | Some v1, Some v2 =>
          match b64_index c3 with
          | Some v3 =>
              match b64_index c4 with
              | Some v4 =>
                  match b64_parse rest with
                  | Some tail =>
                      Some (v1 * 4 + v2 / 16 :: v2 mod 16 * 16 + v3 / 4
                              :: v3 mod 4 * 64 + v4 :: tail)
                  | None => None
                  end
              | None =>
                  match rest with
                  | EmptyString => Some [v1 * 4 + v2 / 16; v2 mod 16 * 16 + v3 / 4]
                  | _ => None
                  end
              end
          | None =>
              match rest with
              | EmptyString => Some [v1 * 4 + v2 / 16]
              | _ => None
              end
          end
      | _, _ => None
      end
  | _ => None
  end.

(** A stand-in PNG encoder for the instances: the red band of each pixel. *)
Definition sample_png (img : Image) : list Z :=
  concat (map (fun row => map (fun p => default 0 (head p)) row) (im_rows img)).

(** Lexicographic combination of two comparisons. *)
Definition lex (c1 c2 : comparison) : comparison :=
  match c1 with
  | Eq => c2
  | _ => c1
  end.

(** Chronological order of two clock readings. *)
Definition datetime_compare (d1 d2 : datetime) : comparison :=
  lex (year d1 ?= year d2)
    (lex (month d1 ?= month d2)
      (lex (day d1 ?= day d2)
        (lex (hour d1 ?= hour d2)
          (lex (minute d1 ?= minute d2) (second d1 ?= second d2))))).

Definition is_create (ev : event) : bool :=
  match ev with
  | ImageCreate _ _ _ _ _ _ => true
  | _ => false
  end.

(** The trigger pressed with a credential and a word of two blanks. *)
Definition blank_inputs : inputs :=
  mkInputs "sk-test" "  " true (fun _ => false).

(** One second after [sample_clock]. *)
Definition later_clock : datetime := mkDatetime 2025 3 9 7 5 1.

(** [small_image] in the Classic Wood and in the Modern Black frame. *)
Definition classic_small : Image :=
  match add_frame small_image "Classic Wood" with
  | Return framed => framed
  | Raise _ => small_image
  end.

Definition black_small : Image :=
  match add_frame small_image "Modern Black" with
  | Return framed => framed
  | Raise _ => small_image
  end.

(** ** The select thumbnails (lines 187-207) *)

Definition frame_colors : list string := ["#8B4513"; "#1a1a1a"; "#C0C0C0"].

(** [enumerate(zip(frame_options, frame_colors))] *)
Definition thumbnails : list (nat * (string * string)) :=
  imap (fun i fc => (i, fc)) (zip frame_options frame_colors).




(** ** Proof steps for the two monads *)

Ltac unbind := unfold mbind, mret, result_bind, result_ret in *; simpl in *.

Ltac unM :=
  unfold mbind, mret, M_bind, M_ret, try_except, emit, call, lift, raise,
    get_session, put_session, getitem, index in *; simpl in *.

(** ** Proof steps for arithmetic on digits and sextets *)

Ltac sextet_bounds :=
  unfold is_byte in *;
  repeat match goal with
         | H : _ && _ = true |- _ => apply andb_true_iff in H; destruct H
         | H : (_ <=? _) = true |- _ => apply Z.leb_le in H
         | H : (_ <? _) = true |- _ => apply Z.ltb_lt in H
         end;
  Z.div_mod_to_equations; lia.

Ltac compare_cases :=
  repeat match goal with
         | |- context [match ?a ?= ?b with _ => _ end] =>
             destruct (Z.compare_spec a b)
         end;
  try match goal with
      | |- (?a ?= ?b) = _ => destruct (Z.compare_spec a b)
      end;
  unfold lex; symmetry;
  first [ apply Z.compare_eq_iff | apply Z.compare_lt_iff | apply Z.compare_gt_iff ];
  Z.div_mod_to_equations; lia.

(** * Properties *)

(** ** Frame compositor *)

Lemma rectangle_ok im x0 y0 x1 y1 fill ink :
  getcolor fill (im_mode im) = Return ink -> x0 <= x1 -> y0 <= y1 ->
  rectangle im (x0, y0, x1, y1) fill =
    Return (mkImage (im_mode im) (im_width im) (im_height im)
              (fill_box (x0, y0, x1, y1) ink (im_rows im))).
Proof.
  intros Hink Hx Hy. unfold rectangle. rewrite Hink. unbind.
  destruct (Z.ltb_spec x1 x0); [lia|].
  destruct (Z.ltb_spec y1 y0); [lia|]. reflexivity.
Qed.

Lemma getpixel_fill_box m w h b ink rows x y :
  getpixel (mkImage m w h (fill_box b ink rows)) x y =
  (fun p => if in_box b x y then ink else p) <$> getpixel (mkImage m w h rows) x y.
Proof.
  unfold getpixel, fill_box. simpl. rewrite list_lookup_imap.
  destruct (rows !! y) as [row|]; simpl; [|reflexivity].
  rewrite list_lookup_imap. destruct (row !! x); reflexivity.
Qed.

Lemma wf_fill_box m w h b ink rows :
  wf_image (mkImage m w h rows) = true ->
  wf_image (mkImage m w h (fill_box b ink rows)) = true.
Proof.
  unfold wf_image, fill_box. simpl.
  rewrite !andb_true_iff, length_imap. intros [[[Hw Hh] Hlen] Hrows].
  repeat split; try assumption.
  rewrite forallb_forall in *. intros row Hin.
  apply list_elem_of_In, list_elem_of_lookup in Hin as [y Hy].
  rewrite list_lookup_imap in Hy.
  destruct (rows !! y) as [row0|] eqn:Hrow; simpl in Hy; [|discriminate].
  injection Hy as <-. rewrite length_imap.
  apply Hrows, list_elem_of_In, list_elem_of_lookup. eauto.
Qed.

(** The image [add_frame] builds: the four boxes filled in source order. *)
Lemma add_frame_unfold image frame_style frame ink :
  wf_image image = true ->
  frames !! frame_style = Some frame ->
  1 <= frame_width frame ->
  getcolor (frame_color frame) (im_mode image) = Return ink ->
  let W := im_width image in
  let H := im_height image in
  let bw := frame_width frame in
  add_frame image frame_style =
    Return (mkImage (im_mode image) W H
      (fill_box (right_box W H bw) ink
        (fill_box (left_box W H bw) ink
          (fill_box (bottom_box W H bw) ink
            (fill_box (top_box W H bw) ink (im_rows image)))))).
Proof.
  intros Hwf Hfr Hbw Hink W H bw.
  unfold wf_image in Hwf. rewrite !andb_true_iff in Hwf.
  destruct Hwf as [[[HW HH] _] _].
  apply Nat.ltb_lt in HW, HH.
  unfold add_frame, getitem. rewrite Hfr. unbind.
  rewrite (rectangle_ok _ _ _ _ _ _ ink) by (simpl; auto; lia). simpl.
  rewrite (rectangle_ok _ _ _ _ _ _ ink) by (simpl; auto; lia). simpl.
  rewrite (rectangle_ok _ _ _ _ _ _ ink) by (simpl; auto; lia). simpl.
  rewrite (rectangle_ok _ _ _ _ _ _ ink) by (simpl; auto; lia). simpl.
  reflexivity.
Qed.

(** Every pixel of the framed image: the ink inside the four boxes, the
    original pixel elsewhere. *)
Lemma add_frame_getpixel image frame_style frame ink :
  wf_image image = true ->
  frames !! frame_style = Some frame ->
  1 <= frame_width frame ->
  getcolor (frame_color frame) (im_mode image) = Return ink ->
  exists out,
    add_frame image frame_style = Return out /\
    im_mode out = im_mode image /\
    im_width out = im_width image /\
    im_height out = im_height image /\
    wf_image out = true /\
    forall x y,
      getpixel out x y =
      (fun p => if in_border (im_width image) (im_height image)
                     (frame_width frame) x y then ink else p)
        <$> getpixel image x y.
Proof.
  intros Hwf Hfr Hbw Hink. eexists. split.
  { apply add_frame_unfold; eassumption. }
  destruct image as [m W H rows]. simpl in *.
  repeat split.
  - do 4 apply wf_fill_box. exact Hwf.
  - intros x y. rewrite !getpixel_fill_box. unfold in_border.
    generalize (in_box (top_box W H (frame_width frame)) x y),
               (in_box (bottom_box W H (frame_width frame)) x y),
               (in_box (left_box W H (frame_width frame)) x y),
               (in_box (right_box W H (frame_width frame)) x y).
    intros t b l r.
    destruct (getpixel (mkImage m W H rows) x y) as [p|]; [|reflexivity].
    destruct t, b, l, r; reflexivity.
Qed.

Lemma frames_options frame_style :
  In frame_style frame_options ->
  exists frame rgb,
    frames !! frame_style = Some frame /\
    In (frame_style, frame_color frame, frame_width frame, rgb) frame_table /\
    1 <= frame_width frame /\
    getrgb (frame_color frame) = Return rgb /\
    forall m, getcolor (frame_color frame) m = Return (ink_of m rgb).
Proof.
  intros [<-|[<-|[<-|[]]]]; do 2 eexists; (split; [reflexivity|]);
    (split; [simpl; tauto|]); (split; [simpl; lia|]); (split; [reflexivity|]);
    intros []; reflexivity.
Qed.

Lemma in_border_false_iff W H bw x y :
  (x < W)%nat -> (y < H)%nat -> 0 <= bw ->
  in_border W H bw x y = false <->
  bw < Z.of_nat x < Z.of_nat W - bw /\ bw < Z.of_nat y < Z.of_nat H - bw.
Proof.
  intros Hx Hy Hbw. unfold in_border, in_box, top_box, bottom_box, left_box, right_box.
  rewrite !orb_false_iff, !andb_false_iff, !Z.leb_gt. lia.
Qed.

Lemma getpixel_some im x y :
  wf_image im = true -> (x < im_width im)%nat -> (y < im_height im)%nat ->
  is_Some (getpixel im x y).
Proof.
  unfold wf_image, getpixel. rewrite !andb_true_iff.
  intros [[_ Hlen] Hrows] Hx Hy. apply Nat.eqb_eq in Hlen.
  destruct (lookup_lt_is_Some_2 (im_rows im) y) as [row Hrow]; [lia|].
  rewrite Hrow. simpl. apply lookup_lt_is_Some_2.
  rewrite forallb_forall in Hrows.
  specialize (Hrows row). rewrite Nat.eqb_eq in Hrows. rewrite Hrows; [lia|].
  apply list_elem_of_In, list_elem_of_lookup. eauto.
Qed.

Lemma wf_white_image w h :
  (0 < w)%nat -> (0 < h)%nat -> wf_image (white_image w h) = true.
Proof.
  intros Hw Hh. unfold wf_image, white_image. simpl.
  rewrite !andb_true_iff, length_replicate, Nat.eqb_refl.
  repeat split; try (apply Nat.ltb_lt; assumption).
  apply forallb_forall. intros row Hin.
  apply list_elem_of_In, elem_of_replicate in Hin as [-> _].
  rewrite length_replicate. apply Nat.eqb_refl.
Qed.

Lemma getpixel_white_image w h x y :
  (x < w)%nat -> (y < h)%nat ->
  getpixel (white_image w h) x y = Some [255; 255; 255].
Proof.
  intros Hx Hy. unfold getpixel, white_image. simpl.
  rewrite lookup_replicate_2 by assumption. simpl.
  apply lookup_replicate_2. assumption.
Qed.

(** C1. For a decoded bitmap and each of the three frame styles, [add_frame]
    returns an image of the same width and height, again a bitmap of that
    size, in which every pixel outside the four border rectangles, that is
    every pixel strictly inside the border box, is the pixel of the input. *)
Theorem add_frame_keeps_size_and_interior image frame_style :
  wf_image image = true ->
  In frame_style frame_options ->
  exists out frame,
    frames !! frame_style = Some frame /\
    add_frame image frame_style = Return out /\
    im_width out = im_width image /\
    im_height out = im_height image /\
    wf_image out = true /\
    (forall x y,
       in_border (im_width image) (im_height image) (frame_width frame) x y = false ->
       getpixel out x y = getpixel image x y) /\
    (forall x y,
       frame_width frame < Z.of_nat x < Z.of_nat (im_width image) - frame_width frame ->
       frame_width frame < Z.of_nat y < Z.of_nat (im_height image) - frame_width frame ->
       is_Some (getpixel image x y) /\ getpixel out x y = getpixel image x y).
Proof.
  intros Hwf Hin.
  destruct (frames_options _ Hin) as (frame & rgb & Hfr & _ & Hbw & _ & Hink).
  destruct (add_frame_getpixel image frame_style frame _ Hwf Hfr Hbw
              (Hink (im_mode image)))
    as (out & Hout & _ & HW & HH & Hwf' & Hpx).
  exists out, frame. repeat (split; [assumption|]).
  assert (Hkeep : forall x y,
    in_border (im_width image) (im_height image) (frame_width frame) x y = false ->
    getpixel out x y = getpixel image x y).
  { intros x y Hout_border. rewrite Hpx, Hout_border.
    destruct (getpixel image x y); reflexivity. }
  split; [exact Hkeep|].
  intros x y Hx Hy. split.
  - apply getpixel_some; [assumption|lia|lia].
  - apply Hkeep, in_border_false_iff; lia.
Qed.

(** C4. For each of the three frame styles [add_frame] uses the colour and
    width of the table (Classic Wood #8B4513 at 40, Modern Black #1a1a1a at
    30, Silver Metal #C0C0C0 at 35): the pixels it paints are those of the
    four rectangles computed from that width, each of them holds exactly the
    parsed colour, and every output pixel is either that colour or the input
    pixel, so nothing is blended. *)
Theorem add_frame_paints_configured_color image frame_style :
  wf_image image = true ->
  In frame_style frame_options ->
  exists out frame rgb,
    frames !! frame_style = Some frame /\
    In (frame_style, frame_color frame, frame_width frame, rgb) frame_table /\
    getrgb (frame_color frame) = Return rgb /\
    add_frame image frame_style = Return out /\
    (forall x y,
       (x < im_width image)%nat -> (y < im_height image)%nat ->
       in_border (im_width image) (im_height image) (frame_width frame) x y = true ->
       getpixel out x y = Some (ink_of (im_mode image) rgb)) /\
    (forall x y,
       in_border (im_width image) (im_height image) (frame_width frame) x y = false ->
       getpixel out x y = getpixel image x y) /\
    (forall x y p,
       getpixel out x y = Some p ->
       p = ink_of (im_mode image) rgb \/ getpixel image x y = Some p).
Proof.
  intros Hwf Hin.
  destruct (frames_options _ Hin) as (frame & rgb & Hfr & Htab & Hbw & Hrgb & Hink).
  destruct (add_frame_getpixel image frame_style frame _ Hwf Hfr Hbw
              (Hink (im_mode image)))
    as (out & Hout & _ & _ & _ & _ & Hpx).
  exists out, frame, rgb. repeat (split; [assumption|]). split; [|split].
  - intros x y Hx Hy Hb. rewrite Hpx, Hb.
    destruct (getpixel_some image x y Hwf Hx Hy) as [p ->]. reflexivity.
  - intros x y Hb. rewrite Hpx, Hb. destruct (getpixel image x y); reflexivity.
  - intros x y p. rewrite Hpx.
    destruct (getpixel image x y) as [q|]; simpl; [|discriminate].
    destruct (in_border _ _ _ x y); intros [= <-]; auto.
Qed.

(** Every pixel of the Modern Black frame on the 1024 x 1024 white image. *)
Lemma modern_black_1024_pixels :
  exists out,
    add_frame (white_image 1024 1024) "Modern Black" = Return out /\
    forall x y, (x < 1024)%nat -> (y < 1024)%nat ->
      getpixel out x y =
      Some (if in_border 1024 1024 30 x y then [26; 26; 26] else [255; 255; 255]).
Proof.
  destruct (add_frame_getpixel (white_image 1024 1024) "Modern Black"
              (mkFrame "#1a1a1a" 30) [26; 26; 26])
    as (out & Hout & _ & _ & _ & _ & Hpx).
  - apply wf_white_image; lia.
  - reflexivity.
  - simpl. lia.
  - reflexivity.
  - exists out. split; [exact Hout|]. intros x y Hx Hy.
    rewrite Hpx. change (im_width (white_image 1024 1024)) with 1024%nat.
    change (im_height (white_image 1024 1024)) with 1024%nat.
    rewrite getpixel_white_image by assumption. reflexivity.
Qed.

(** C2. On the 1024 x 1024 white image the Modern Black frame is 31 pixels
    thick at the top and on the left (rows and columns 0 to 30) and 30 pixels
    thick at the bottom and on the right (994 to 1023): row 30 and column 30
    are painted, so the white interior is 963 x 963 (31 to 993), not the
    964 x 964 region a 30-pixel border on all four sides would leave. *)
Theorem modern_black_1024_band_is_31_wide :
  exists out,
    add_frame (white_image 1024 1024) "Modern Black" = Return out /\
    getpixel out 500 30 = Some [26; 26; 26] /\
    getpixel out 30 500 = Some [26; 26; 26] /\
    getpixel out 30 30 = Some [26; 26; 26] /\
    getpixel out 31 31 = Some [255; 255; 255] /\
    getpixel out 993 993 = Some [255; 255; 255] /\
    getpixel out 500 993 = Some [255; 255; 255] /\
    getpixel out 993 500 = Some [255; 255; 255] /\
    getpixel out 500 994 = Some [26; 26; 26] /\
    getpixel out 994 500 = Some [26; 26; 26].
Proof.
  destruct modern_black_1024_pixels as (out & Hout & Hpx).
  exists out. split; [exact Hout|].
  repeat split; rewrite Hpx by lia; vm_compute; reflexivity.
Qed.

(** ** Prompt builder *)

Lemma rstrip_app_l s t :
  rstrip t <> EmptyString ->
  rstrip (s ++ t) = s ++ rstrip t /\ rstrip (s ++ t) <> EmptyString.
Proof.
  intros Ht. induction s as [|c s [IH IHne]].
  - split; [reflexivity|exact Ht].
  - change (String c s ++ t) with (String c (s ++ t)).
    change (String c s ++ rstrip t) with (String c (s ++ rstrip t)).
    cbn [rstrip]. rewrite <- IH.
    destruct (rstrip (s ++ t)); [contradiction|]. split; [reflexivity|discriminate].
Qed.

(** C3. For every word, the empty one included, the prompt is the fixed
    template with the word at its two slots, inside the quotes after
    "inspired by the word" and after "relate to"; it lists the three blue
    shade names and the three gray shade names. *)
Theorem create_mandala_prompt_slots inspiration :
  create_mandala_prompt inspiration =
    "Create a beautiful, detailed mandala art inspired by the word '"
      ++ inspiration ++ "'. " ++ nl ++
    "    The mandala should be centered, symmetrical, and intricate with a circular pattern." ++ nl ++
    "    Use EXACTLY 3 shades of blue (" ++ join ", " blue_shades ++ ") " ++ nl ++
    "    and 3 shades of gray (" ++ join ", " gray_shades ++ ") only." ++ nl ++
    "    The design should be spiritual and meditative with intricate patterns." ++ nl ++
    "    Include subtle elements that relate to '" ++ inspiration
      ++ "' in the mandala pattern." ++ nl ++
    "    Make it high-contrast against a white background so all details are clearly visible." ++ nl ++
    "    The mandala should be centered in the image with balanced composition."
  /\ join ", " blue_shades = "dark blue, medium blue, light blue"
  /\ join ", " gray_shades = "dark gray, medium gray, light gray"
  /\ length blue_shades = 3%nat /\ NoDup blue_shades
  /\ length gray_shades = 3%nat /\ NoDup gray_shades.
Proof.
  split; [|repeat split; try reflexivity;
             apply (bool_decide_unpack _); vm_compute; reflexivity].
  unfold create_mandala_prompt, strip.
  set (tail_raw :=
    "' in the mandala pattern." ++ nl ++
    "    Make it high-contrast against a white background so all details are clearly visible." ++ nl ++
    "    The mandala should be centered in the image with balanced composition." ++ nl ++
    "    ").
  set (mid :=
    "'. " ++ nl ++
    "    The mandala should be centered, symmetrical, and intricate with a circular pattern." ++ nl ++
    "    Use EXACTLY 3 shades of blue (" ++ join ", " blue_shades ++ ") " ++ nl ++
    "    and 3 shades of gray (" ++ join ", " gray_shades ++ ") only." ++ nl ++
    "    The design should be spiritual and meditative with intricate patterns." ++ nl ++
    "    Include subtle elements that relate to '").
  set (head := "Create a beautiful, detailed mandala art inspired by the word '").
  assert (Htail : rstrip tail_raw =
    "' in the mandala pattern." ++ nl ++
    "    Make it high-contrast against a white background so all details are clearly visible." ++ nl ++
    "    The mandala should be centered in the image with balanced composition.")
    by (vm_compute; reflexivity).
  assert (Hne : rstrip tail_raw <> EmptyString) by (rewrite Htail; discriminate).
  change (rstrip (head ++ inspiration ++ mid ++ inspiration ++ tail_raw) =
          head ++ inspiration ++ mid ++ inspiration ++ rstrip tail_raw).
  destruct (rstrip_app_l inspiration tail_raw Hne) as [E1 N1].
  destruct (rstrip_app_l mid _ N1) as [E2 N2].
  destruct (rstrip_app_l inspiration _ N2) as [E3 N3].
  destruct (rstrip_app_l head _ N3) as [E4 _].
  rewrite E4, E3, E2, E1. reflexivity.
Qed.

(** ** Download file name *)

Lemma nat_of_digit n : nat_of_ascii (digit n) = (48 + Z.to_nat (n mod 10))%nat.
Proof.
  unfold digit. apply nat_ascii_embedding.
  pose proof (Z.mod_pos_bound n 10). lia.
Qed.

Lemma is_digit_digit n : is_digit (digit n) = true.
Proof.
  unfold is_digit. rewrite nat_of_digit.
  pose proof (Z.mod_pos_bound n 10).
  apply andb_true_iff. split; apply Nat.leb_le; lia.
Qed.

Lemma digit_value n : Z.of_nat (nat_of_ascii (digit n)) - 48 = n mod 10.
Proof. rewrite nat_of_digit. pose proof (Z.mod_pos_bound n 10). lia. Qed.

Lemma strftime_chars d :
  strftime d "%Y%m%d_%H%M%S" =
    zpad4 (year d) ++ zpad2 (month d) ++ zpad2 (day d) ++ "_" ++
    zpad2 (hour d) ++ zpad2 (minute d) ++ zpad2 (second d).
Proof. reflexivity. Qed.

Lemma digits_value_zpad2 n : 0 <= n <= 99 -> digits_value (zpad2 n) = n.
Proof.
  intros Hn. unfold digits_value, zpad2. cbn [list_ascii_of_string fold_left].
  rewrite !digit_value. Z.div_mod_to_equations. lia.
Qed.

Lemma digits_value_zpad4 n : 0 <= n <= 9999 -> digits_value (zpad4 n) = n.
Proof.
  intros Hn. unfold digits_value, zpad4, zpad2. cbn [list_ascii_of_string fold_left].
  rewrite !digit_value. Z.div_mod_to_equations. lia.
Qed.

Lemma is_timestamp_strftime d : is_timestamp (strftime d "%Y%m%d_%H%M%S") = true.
Proof.
  rewrite strftime_chars. unfold is_timestamp, zpad4, zpad2.
  cbv -[digit is_digit Z.div year month day hour minute second].
  rewrite !is_digit_digit. reflexivity.
Qed.

Lemma strftime_fields d :
  let ts := strftime d "%Y%m%d_%H%M%S" in
  substring 0 4 ts = zpad4 (year d) /\
  substring 4 2 ts = zpad2 (month d) /\
  substring 6 2 ts = zpad2 (day d) /\
  substring 9 2 ts = zpad2 (hour d) /\
  substring 11 2 ts = zpad2 (minute d) /\
  substring 13 2 ts = zpad2 (second d).
Proof. repeat split; reflexivity. Qed.

(** ** Image provider client *)

Lemma generate_mandala_image_cases w api_key prompt s tr :
  (exists img url content,
     requests_get w url = inr content /\
     Image_open w content = inr img /\
     generate_mandala_image w api_key prompt (s, tr) =
       (Return (Some img),
        (s, (tr ++ [ImageCreate api_key "dall-e-3" prompt "1024x1024" "standard" 1;
                    HttpGet url])%list)))
  \/
  (exists e reqs,
     is_Exception e = true /\
     forallb is_request reqs = true /\
     generate_mandala_image w api_key prompt (s, tr) =
       (Return None,
        (s, (tr ++ reqs ++ [StError ("Error generating image: " ++ str_exn e)])%list))).
Proof.
  unfold generate_mandala_image. unM.
  destruct (openai_Image_create w api_key prompt) as [msg|response]; simpl.
  { right. exists (ServiceError msg), [ImageCreate api_key "dall-e-3" prompt "1024x1024" "standard" 1].
    rewrite <- app_assoc. auto. }
  destruct (response !! "data") as [data|]; simpl.
  2:{ right. exists (KeyError "data"), [ImageCreate api_key "dall-e-3" prompt "1024x1024" "standard" 1].
    rewrite <- app_assoc. auto. }
  destruct (data !! 0%nat) as [first|]; simpl.
  2:{ right. exists IndexError, [ImageCreate api_key "dall-e-3" prompt "1024x1024" "standard" 1].
    rewrite <- app_assoc. auto. }
  destruct (first !! "url") as [image_url|]; simpl.
  2:{ right. exists (KeyError "url"), [ImageCreate api_key "dall-e-3" prompt "1024x1024" "standard" 1].
    rewrite <- app_assoc. auto. }
  destruct (requests_get w image_url) as [msg|content] eqn:Hget; simpl.
  { right. exists (ServiceError msg),
      [ImageCreate api_key "dall-e-3" prompt "1024x1024" "standard" 1; HttpGet image_url].
    rewrite <- !app_assoc. auto. }
  destruct (Image_open w content) as [msg|img] eqn:Hopen; simpl.
  { right. exists (ServiceError msg),
      [ImageCreate api_key "dall-e-3" prompt "1024x1024" "standard" 1; HttpGet image_url].
    rewrite <- !app_assoc. auto. }
  left. exists img, image_url, content. rewrite <- app_assoc. auto.
Qed.

(** ** Session glue *)

Lemma add_frame_returns img frame :
  wf_image img = true -> In frame frame_options ->
  exists framed, add_frame img frame = Return framed.
Proof.
  intros Hwf Hin.
  destruct (frames_options _ Hin) as (fr & rgb & Hfr & _ & Hbw & _ & Hink).
  destruct (add_frame_getpixel img frame fr _ Hwf Hfr Hbw (Hink (im_mode img)))
    as (out & Hout & _). eauto.
Qed.

Lemma framed_dict_options img :
  wf_image img = true ->
  exists d, framed_dict img frame_options ∅ = Return d /\ framed_from img d.
Proof.
  intros Hwf.
  destruct (add_frame_returns img "Classic Wood" Hwf) as [f1 H1]; [simpl; tauto|].
  destruct (add_frame_returns img "Modern Black" Hwf) as [f2 H2]; [simpl; tauto|].
  destruct (add_frame_returns img "Silver Metal" Hwf) as [f3 H3]; [simpl; tauto|].
  eexists. split.
  { unfold frame_options. cbn [framed_dict]. rewrite H1. unbind.
    rewrite H2. unbind. rewrite H3. unbind. reflexivity. }
  split.
  - rewrite !dom_insert_L, dom_empty_L. unfold frame_options. simpl. set_solver.
  - intros frame [<-|[<-|[<-|[]]]]; eexists; (split; [eassumption|]);
      simplify_map_eq; reflexivity.
Qed.

Lemma script_unfold w inp σ :
  script w inp σ =
  match sidebar w inp σ with
  | (Return _, σ') => main_content w inp σ'
  | (Raise e, σ') => (Raise e, σ')
  end.
Proof. reflexivity. Qed.

(** The three ways the sidebar block can go. *)
Lemma sidebar_cases w inp s tr :
  (attempts_generation inp = false /\
   sidebar w inp (s, tr) = (Return tt, (s, tr)))
  \/
  (attempts_generation inp = true /\
   exists e reqs,
     is_Exception e = true /\ forallb is_request reqs = true /\
     generate_mandala_image w (api_key inp)
       (create_mandala_prompt (inspiration inp)) (s, tr) =
       (Return None,
        (s, (tr ++ reqs ++ [StError ("Error generating image: " ++ str_exn e)])%list)) /\
     sidebar w inp (s, tr) =
       (Return tt,
        (s, (tr ++ reqs ++ [StError ("Error generating image: " ++ str_exn e)])%list)))
  \/
  (attempts_generation inp = true /\
   exists img url content,
     Image_open w content = inr img /\
     generate_mandala_image w (api_key inp)
       (create_mandala_prompt (inspiration inp)) (s, tr) =
       (Return (Some img), (s, (tr ++ [create_event inp; HttpGet url])%list)) /\
     sidebar w inp (s, tr) =
       match framed_dict img frame_options ∅ with
       | Return d =>
           (Return tt,
            (mkSession (Some img) d (selected_frame s),
             (tr ++ [create_event inp; HttpGet url;
                     StSuccess "Mandala generated successfully!"])%list))
       | Raise e =>
           (Raise e,
            (mkSession (Some img) (framed_images s) (selected_frame s),
             (tr ++ [create_event inp; HttpGet url])%list))
       end).
Proof.
  unfold sidebar. fold (attempts_generation inp).
  destruct (attempts_generation inp); [|left; auto]. right.
  destruct (generate_mandala_image_cases w (api_key inp)
              (create_mandala_prompt (inspiration inp)) s tr)
    as [(img & url & content & _ & Hopen & Hrun)|(e & reqs & He & Hreqs & Hrun)].
  - right. split; [reflexivity|]. exists img, url, content.
    split; [exact Hopen|]. split; [exact Hrun|].
    unfold mbind at 1. unfold M_bind at 1. rewrite Hrun.
    generalize (framed_dict img frame_options ∅). intros [d|e]; unM; [|reflexivity].
    rewrite <- app_assoc. reflexivity.
  - left. split; [reflexivity|]. exists e, reqs.
    repeat (split; [assumption|]).
    unfold mbind at 1. unfold M_bind at 1. rewrite Hrun. reflexivity.
Qed.

(** The select buttons: nothing pressed, or the first pressed one sets the
    selection and ends the run by [st.rerun()]. *)
Lemma frame_buttons_cases inp options i s tr :
  ((forall j, (j < length options)%nat -> select_button inp (i + j) = false) /\
   frame_buttons inp i options (s, tr) = (Return tt, (s, tr)))
  \/
  (exists j frame,
     options !! j = Some frame /\
     select_button inp (i + j) = true /\
     (forall k, (k < j)%nat -> select_button inp (i + k) = false) /\
     frame_buttons inp i options (s, tr) =
       (Raise RerunException,
        (mkSession (mandala_image s) (framed_images s) frame, tr))).
Proof.
  revert i. induction options as [|frame rest IH]; intros i.
  - left. split; [simpl; intros; lia|reflexivity].
  - cbn [frame_buttons]. destruct (select_button inp i) eqn:Hi.
    + right. exists 0%nat, frame. rewrite Nat.add_0_r.
      repeat split; [assumption|intros; lia].
    + destruct (IH (S i)) as [[Hno Hrun]|(j & fr & Hj & Hsel & Hbefore & Hrun)].
      * left. split.
        -- intros [|j] Hlt; [rewrite Nat.add_0_r; exact Hi|].
           rewrite Nat.add_succ_r. apply Hno. simpl in Hlt. lia.
        -- unM. exact Hrun.
      * right. exists (S j), fr. rewrite Nat.add_succ_r. repeat split; try assumption.
        intros [|k] Hlt; [rewrite Nat.add_0_r; exact Hi|].
        rewrite Nat.add_succ_r. apply Hbefore. lia.
Qed.

Lemma main_content_cases w inp s tr :
  (mandala_image s = None /\
   main_content w inp (s, tr) = (Return tt, (s, (tr ++ [placeholder])%list)))
  \/
  (mandala_image s <> None /\
   framed_images s !! selected_frame s = None /\
   main_content w inp (s, tr) = (Raise (KeyError (selected_frame s)), (s, tr)))
  \/
  (exists shown,
     mandala_image s <> None /\
     framed_images s !! selected_frame s = Some shown /\
     (forall j, (j < 3)%nat -> select_button inp j = false) /\
     main_content w inp (s, tr) =
       (Return tt,
        (s, (tr ++
             [StImage shown
                (dq ++ inspiration inp ++ dq ++ " Mandala with "
                   ++ selected_frame s ++ " frame");
              StDownloadLink
                (get_image_download_link shown
                   (download_filename (inspiration inp) (datetime_now w))
                   "Download Mandala")])%list)))
  \/
  (exists shown j frame,
     mandala_image s <> None /\
     framed_images s !! selected_frame s = Some shown /\
     frame_options !! j = Some frame /\
     select_button inp j = true /\
     (forall k, (k < j)%nat -> select_button inp k = false) /\
     main_content w inp (s, tr) =
       (Raise RerunException,
        (mkSession (mandala_image s) (framed_images s) frame,
         (tr ++
          [StImage shown
             (dq ++ inspiration inp ++ dq ++ " Mandala with "
                ++ selected_frame s ++ " frame")])%list))).
Proof.
  pose proof (frame_buttons_cases inp frame_options 0) as Hbuttons.
  unfold main_content.
  generalize dependent (frame_buttons inp 0 frame_options). intros buttons Hbuttons.
  unfold mbind, M_bind, get_session, lift, getitem, emit. cbn [fst snd].
  destruct (mandala_image s) as [img|] eqn:Himg; [|left; auto]. right.
  destruct (framed_images s !! selected_frame s) as [shown|] eqn:Hshown;
    [|left; repeat split; congruence]. right.
  set (caption := dq ++ inspiration inp ++ dq ++ " Mandala with "
                    ++ selected_frame s ++ " frame").
  simpl.
  destruct (Hbuttons s (tr ++ [StImage shown caption])%list)
    as [[Hno Hrun]|(j & frame & Hj & Hsel & Hbefore & Hrun)]; rewrite Hrun.
  - left. exists shown. simpl. rewrite Hshown, <- app_assoc.
    repeat split; try congruence. exact Hno.
  - right. exists shown, j, frame. repeat split; try congruence; assumption.
Qed.

Lemma sidebar_summary w inp s tr :
  exists r s1 evs,
    sidebar w inp (s, tr) = (r, (s1, (tr ++ evs)%list)) /\
    selected_frame s1 = selected_frame s /\
    (forall body, ~ In (StDownloadLink body) evs) /\
    (attempts_generation inp = false -> r = Return tt /\ s1 = s /\ evs = []).
Proof.
  destruct (sidebar_cases w inp s tr)
    as [[Hno Hrun]|[(Hgo & e & reqs & _ & Hreqs & _ & Hrun)
                   |(Hgo & img & url & content & _ & _ & Hrun)]].
  - exists (Return tt), s, []. rewrite app_nil_r. repeat split; auto.
  - eexists _, _, _. split; [exact Hrun|]. split; [reflexivity|]. split.
    + intros body Hin. apply in_app_or in Hin as [Hin|[Hin|[]]]; [|discriminate].
      rewrite forallb_forall in Hreqs. specialize (Hreqs _ Hin). discriminate.
    + congruence.
  - destruct (framed_dict img frame_options ∅) as [d|e];
      eexists _, _, _; (split; [exact Hrun|]); (split; [reflexivity|]);
      (split; [|congruence]); intros body Hin; simpl in Hin;
      unfold create_event in Hin; intuition discriminate.
Qed.

Lemma main_content_summary w inp s tr :
  exists r s2 evs,
    main_content w inp (s, tr) = (r, (s2, (tr ++ evs)%list)) /\
    mandala_image s2 = mandala_image s /\
    framed_images s2 = framed_images s /\
    (selected_frame s2 = selected_frame s \/
     exists j frame,
       frame_options !! j = Some frame /\ select_button inp j = true /\
       selected_frame s2 = frame) /\
    ((forall j, (j < 3)%nat -> select_button inp j = false) -> s2 = s) /\
    forallb is_display evs = true /\
    (forall body, In (StDownloadLink body) evs ->
       exists img,
         framed_images s2 !! selected_frame s2 = Some img /\
         body = get_image_download_link img
                  (download_filename (inspiration inp) (datetime_now w))
                  "Download Mandala").
Proof.
  destruct (main_content_cases w inp s tr)
    as [[_ Hrun]|[(_ & _ & Hrun)|[(shown & _ & Hshown & Hno & Hrun)
       |(shown & j & frame & _ & _ & Hj & Hsel & Hbefore & Hrun)]]].
  - eexists _, _, _. split; [exact Hrun|].
    repeat split; auto. intros body [Hin|[]]. discriminate.
  - eexists _, s, []. rewrite app_nil_r. split; [exact Hrun|].
    repeat split; auto. intros body [].
  - eexists _, _, _. split; [exact Hrun|]. repeat split; auto.
    intros body [Hin|[[= <-]|[]]]; [discriminate|]. eauto.
  - eexists _, _, _. split; [exact Hrun|]. simpl.
    split; [reflexivity|]. split; [reflexivity|].
    split; [right; exists j, frame; auto|].
    split; [|split; [reflexivity|]].
    + intros Hno. apply lookup_lt_Some in Hj. simpl in Hj.
      rewrite Hno in Hsel by exact Hj. discriminate.
    + intros body [Hin|[]]. discriminate.
Qed.

(** One whole run, from the two blocks. *)
Lemma run_script_summary w inp s :
  let s' := state_after w inp s in
  (selected_frame s' = selected_frame s \/
   exists j frame,
     frame_options !! j = Some frame /\ select_button inp j = true /\
     selected_frame s' = frame) /\
  (attempts_generation inp = false ->
     mandala_image s' = mandala_image s /\
     framed_images s' = framed_images s /\
     forallb is_display (trace_of w inp s) = true /\
     ((forall j, (j < 3)%nat -> select_button inp j = false) -> s' = s)) /\
  (forall body, In (StDownloadLink body) (trace_of w inp s) ->
     exists img,
       framed_images s' !! selected_frame s' = Some img /\
       body = get_image_download_link img
                (download_filename (inspiration inp) (datetime_now w))
                "Download Mandala").
Proof.
  unfold state_after, trace_of, run_script. rewrite script_unfold.
  destruct (sidebar_summary w inp s []) as (r & s1 & evs1 & Hside & Hsel1 & Hmd1 & Hno).
  rewrite Hside. simpl.
  destruct r as [[]|e]; simpl.
  - destruct (main_content_summary w inp s1 evs1)
      as (r2 & s2 & evs2 & Hmain & Himg & Hfr & Hsel2 & Hsame & Hdisp & Hmd2).
    rewrite Hmain. simpl. split; [|split].
    + rewrite <- Hsel1. exact Hsel2.
    + intros Hgo. destruct (Hno Hgo) as (_ & -> & ->).
      repeat split; auto.
    + intros body Hin. apply in_app_or in Hin as [Hin|Hin]; [|auto].
      destruct (Hmd1 _ Hin).
  - split; [auto|]. split.
    + intros Hgo. destruct (Hno Hgo) as (? & _ & _). discriminate.
    + intros body Hin. destruct (Hmd1 _ Hin).
Qed.

(** C5. When a generation attempt yields no image, the run shows the error
    notice, the sidebar block leaves the session state as it was, and after
    the whole run the stored image and every entry of the framed-image
    dictionary are those from before the attempt. *)
Theorem failed_generation_keeps_session w inp s :
  attempts_generation inp = true ->
  (generate_mandala_image w (api_key inp)
     (create_mandala_prompt (inspiration inp)) (s, [])).1 = Return None ->
  (exists msg,
     In (StError ("Error generating image: " ++ msg)) (trace_of w inp s)) /\
  (sidebar w inp (s, [])).2.1 = s /\
  mandala_image (state_after w inp s) = mandala_image s /\
  framed_images (state_after w inp s) = framed_images s /\
  (forall frame,
     framed_images (state_after w inp s) !! frame = framed_images s !! frame).
Proof.
  intros Hgo Hnone.
  destruct (sidebar_cases w inp s [])
    as [[Hno _]|[(_ & e & reqs & _ & _ & _ & Hrun)
                |(_ & img & url & content & _ & Hgen & _)]].
  - congruence.
  - unfold state_after, trace_of, run_script. rewrite script_unfold, Hrun. simpl.
    destruct (main_content_summary w inp s
                (reqs ++ [StError ("Error generating image: " ++ str_exn e)]))
      as (r2 & s2 & evs2 & Hmain & Himg & Hfr & _).
    rewrite Hmain. simpl. split; [|split; [reflexivity|]].
    + exists (str_exn e). apply in_or_app. left. apply in_or_app. right. left.
      reflexivity.
    + rewrite Hfr. auto.
  - rewrite Hgen in Hnone. discriminate.
Qed.

(** C10. With an empty credential or an empty word the sidebar block does
    nothing: the session state and the effects are as before, so no prompt
    is built and no request is sent.  The whole run then sends no request
    and shows no error, keeps the stored image and the framed images, and,
    if no select button is pressed either, leaves the session state
    unchanged. *)
Theorem no_generation_without_word_and_key w inp s :
  api_key inp = EmptyString \/ inspiration inp = EmptyString ->
  attempts_generation inp = false /\
  (forall tr, sidebar w inp (s, tr) = (Return tt, (s, tr))) /\
  forallb is_display (trace_of w inp s) = true /\
  mandala_image (state_after w inp s) = mandala_image s /\
  framed_images (state_after w inp s) = framed_images s /\
  ((forall j, (j < 3)%nat -> select_button inp j = false) ->
   state_after w inp s = s).
Proof.
  intros Hempty.
  assert (Hgo : attempts_generation inp = false).
  { unfold attempts_generation, truthy.
    destruct Hempty as [-> | ->]; simpl;
      rewrite ?andb_false_r; reflexivity. }
  split; [exact Hgo|]. split.
  - intros tr. unfold sidebar. fold (attempts_generation inp). rewrite Hgo.
    reflexivity.
  - destruct (run_script_summary w inp s) as (_ & Hkeep & _).
    destruct (Hkeep Hgo) as (Himg & Hfr & Hdisp & Hsame). auto.
Qed.

(** The converse direction: a request in the trace means the trigger was
    pressed with a word and a credential. *)
Lemma request_needs_word_and_key w inp s ev :
  In ev (trace_of w inp s) -> is_request ev = true ->
  generate_button inp = true /\ inspiration inp <> EmptyString /\ api_key inp <> EmptyString.
Proof.
  intros Hin Hreq.
  destruct (attempts_generation inp) eqn:Hgo.
  - unfold attempts_generation, truthy in Hgo.
    rewrite !andb_true_iff, !negb_true_iff in Hgo.
    destruct Hgo as [[Hb Hw] Hk].
    apply String.eqb_neq in Hw, Hk. auto.
  - destruct (run_script_summary w inp s) as (_ & Hkeep & _).
    destruct (Hkeep Hgo) as (_ & _ & Hdisp & _).
    rewrite forallb_forall in Hdisp. specialize (Hdisp _ Hin).
    unfold is_display in Hdisp. rewrite Hreq in Hdisp. discriminate.
Qed.

(** C9. The file name of every download link a run writes is
    [mandala_<word>_<timestamp>.png] for the word in the text box, where the
    timestamp is the clock reading of that run formatted as eight digits, an
    underscore and six digits that spell year, month, day, hour, minute and
    second; the session state carries no time of generation. *)
Theorem download_filename_pattern w inp s :
  four_digit_clock (datetime_now w) = true ->
  let now := datetime_now w in
  let ts := strftime now "%Y%m%d_%H%M%S" in
  download_filename (inspiration inp) now
    = "mandala_" ++ inspiration inp ++ "_" ++ ts ++ ".png" /\
  is_timestamp ts = true /\
  digits_value (substring 0 4 ts) = year now /\
  digits_value (substring 4 2 ts) = month now /\
  digits_value (substring 6 2 ts) = day now /\
  digits_value (substring 9 2 ts) = hour now /\
  digits_value (substring 11 2 ts) = minute now /\
  digits_value (substring 13 2 ts) = second now /\
  (forall body, In (StDownloadLink body) (trace_of w inp s) ->
     exists img,
       body = get_image_download_link img
                (download_filename (inspiration inp) now) "Download Mandala").
Proof.
  intros Hclock now ts.
  unfold four_digit_clock, valid_datetime in Hclock.
  rewrite !andb_true_iff, !Z.leb_le in Hclock. fold now in Hclock.
  destruct (strftime_fields now) as (EY & Em & Ed & EH & EM & ES).
  fold ts in EY, Em, Ed, EH, EM, ES.
  split; [reflexivity|]. split; [apply is_timestamp_strftime|].
  rewrite EY, Em, Ed, EH, EM, ES.
  rewrite digits_value_zpad4 by lia. rewrite !digits_value_zpad2 by lia.
  repeat (split; [reflexivity|]).
  intros body Hin.
  destruct (run_script_summary w inp s) as (_ & _ & Hmd).
  destruct (Hmd body Hin) as (img & _ & ->). eauto.
Qed.

(** ** The session invariant *)

Lemma session_inv_new : session_inv new_session.
Proof. split; [simpl; tauto|reflexivity]. Qed.

Lemma session_inv_select s j frame :
  session_inv s -> frame_options !! j = Some frame ->
  session_inv (mkSession (mandala_image s) (framed_images s) frame).
Proof.
  intros [_ Hfr] Hj. split; [|exact Hfr].
  cbn [selected_frame]. apply list_elem_of_In, list_elem_of_lookup. eauto.
Qed.

Lemma session_inv_main_content w inp s tr :
  session_inv s -> session_inv (main_content w inp (s, tr)).2.1.
Proof.
  intros Hinv.
  destruct (main_content_cases w inp s tr)
    as [[_ Hrun]|[(_ & _ & Hrun)|[(shown & _ & _ & _ & Hrun)
       |(shown & j & frame & _ & _ & Hj & _ & _ & Hrun)]]];
    rewrite Hrun; simpl; eauto using session_inv_select.
Qed.

Lemma session_inv_run w inp s :
  decodes_bitmaps w -> session_inv s -> session_inv (state_after w inp s).
Proof.
  intros Hdec Hinv. unfold state_after, run_script. rewrite script_unfold.
  destruct (sidebar_cases w inp s [])
    as [[_ Hrun]|[(_ & e & reqs & _ & _ & _ & Hrun)
                |(_ & img & url & content & Hopen & _ & Hrun)]].
  - rewrite Hrun. apply session_inv_main_content, Hinv.
  - rewrite Hrun. apply session_inv_main_content, Hinv.
  - destruct (framed_dict_options img (Hdec _ _ Hopen)) as (d & Hd & Hfrom).
    rewrite Hd in Hrun. rewrite Hrun. apply session_inv_main_content.
    split; [exact (proj1 Hinv)|]. simpl. split; [exact (Hdec _ _ Hopen)|exact Hfrom].
Qed.

Lemma reachable_inv s : reachable s -> session_inv s.
Proof.
  induction 1 as [|w inp s Hdec _ IH];
    [apply session_inv_new|apply session_inv_run; assumption].
Qed.

(** As long as every run's decoder returns bitmaps, on which [add_frame]
    cannot raise, either no image is stored and the framed-image dictionary
    is empty, or an image is stored and the dictionary has exactly the three
    style keys, each bound to what [add_frame] returns for the stored image
    and that style. *)
Lemma framed_images_empty_or_complete s :
  reachable s ->
  (mandala_image s = None /\ framed_images s = ∅) \/
  (exists img,
     mandala_image s = Some img /\
     dom (framed_images s) = list_to_set frame_options /\
     size (framed_images s) = 3%nat /\
     forall frame, In frame frame_options ->
       exists framed,
         add_frame img frame = Return framed /\
         framed_images s !! frame = Some framed).
Proof.
  intros Hreach. destruct (reachable_inv s Hreach) as [_ Hinv].
  destruct (mandala_image s) as [img|]; [right|left; auto].
  destruct Hinv as [_ [Hdom Hall]]. exists img.
  repeat split; try assumption.
  rewrite <- size_dom, Hdom. reflexivity.
Qed.

(** C8. A new session selects Classic Wood.  Over any run the selection
    either stays or becomes the style of a pressed select button.  A run in
    which the generate trigger is not pressed keeps the stored image and the
    framed-image dictionary as they were; from a reachable state with an
    image, pressing the select button of a style in such a run changes the
    session state in its [selected_frame] field only, to that style. *)
Theorem selection_updates_selected_frame_only w inp s :
  selected_frame new_session = "Classic Wood" /\
  (selected_frame (state_after w inp s) = selected_frame s \/
   exists j frame,
     frame_options !! j = Some frame /\ select_button inp j = true /\
     selected_frame (state_after w inp s) = frame) /\
  (generate_button inp = false ->
     mandala_image (state_after w inp s) = mandala_image s /\
     framed_images (state_after w inp s) = framed_images s) /\
  (forall j frame,
     reachable s -> mandala_image s <> None -> generate_button inp = false ->
     frame_options !! j = Some frame -> select_button inp j = true ->
     (forall k, (k < j)%nat -> select_button inp k = false) ->
     state_after w inp s = mkSession (mandala_image s) (framed_images s) frame).
Proof.
  assert (Hgo : generate_button inp = false -> attempts_generation inp = false).
  { unfold attempts_generation. intros ->. reflexivity. }
  destruct (run_script_summary w inp s) as (Hsel & Hkeep & _).
  split; [reflexivity|]. split; [exact Hsel|]. split.
  { intros Hb. destruct (Hkeep (Hgo Hb)) as (Himg & Hfr & _). auto. }
  intros j frame Hreach Himg Hb Hj Hpress Hfirst.
  unfold state_after, run_script. rewrite script_unfold.
  destruct (sidebar_cases w inp s [])
    as [[_ Hrun]|[(Hyes & _)|(Hyes & _)]];
    [|rewrite (Hgo Hb) in Hyes; discriminate..].
  rewrite Hrun.
  destruct (reachable_inv s Hreach) as [Hin Hinv].
  destruct (mandala_image s) as [img|] eqn:Eimg; [|congruence].
  destruct Hinv as [_ [_ Hall]].
  destruct (Hall _ Hin) as (framed & _ & Hshown).
  destruct (main_content_cases w inp s [])
    as [[Hnone _]|[(_ & Hmiss & _)|[(shown & _ & _ & Hno & _)
       |(shown & j' & frame' & _ & _ & Hj' & Hpress' & Hfirst' & Hmain)]]].
  - congruence.
  - congruence.
  - apply lookup_lt_Some in Hj. simpl in Hj.
    rewrite Hno in Hpress by exact Hj. discriminate.
  - rewrite Hmain. simpl. rewrite Eimg.
    assert (j' = j) as ->.
    { destruct (Nat.lt_trichotomy j' j) as [Hlt|[Heq|Hgt]]; [|exact Heq|].
      - rewrite Hfirst in Hpress' by exact Hlt. discriminate.
      - rewrite Hfirst' in Hpress by exact Hgt. discriminate. }
    congruence.
Qed.

(** ** A decoder result on which [add_frame] raises *)





(** * Further properties *)

(** ** Frame compositor: styles, composition, small images *)

Lemma frames_lookup_inv frame_style frame :
  frames !! frame_style = Some frame -> In frame_style frame_options.
Proof.
  unfold frames, frame_options. intros Hfr.
  destruct (decide (frame_style = "Classic Wood")) as [->|H1]; [simpl; tauto|].
  destruct (decide (frame_style = "Modern Black")) as [->|H2]; [simpl; tauto|].
  destruct (decide (frame_style = "Silver Metal")) as [->|H3]; [simpl; tauto|].
  rewrite !lookup_insert_ne, lookup_empty in Hfr by congruence. discriminate.
Qed.

(** X1. A style that is not one of the three table keys makes [add_frame]
    raise [KeyError] with that style, whatever the image. *)
Theorem add_frame_unknown_style image frame_style :
  ~ In frame_style frame_options ->
  add_frame image frame_style = Raise (KeyError frame_style).
Proof.
  intros Hnot. unfold add_frame, getitem.
  destruct (frames !! frame_style) as [frame|] eqn:Hfr; [|reflexivity].
  destruct Hnot. eapply frames_lookup_inv, Hfr.
Qed.

Lemma image_ext im1 im2 :
  wf_image im1 = true -> wf_image im2 = true ->
  im_mode im1 = im_mode im2 ->
  im_width im1 = im_width im2 ->
  im_height im1 = im_height im2 ->
  (forall x y, getpixel im1 x y = getpixel im2 x y) ->
  im1 = im2.
Proof.
  destruct im1 as [m1 W1 H1 rows1], im2 as [m2 W2 H2 rows2].
  unfold wf_image, getpixel. simpl. rewrite !andb_true_iff, !Nat.eqb_eq.
  intros [[_ Hlen1] _] [[_ Hlen2] _] -> -> -> Hpx. f_equal.
  apply list_eq. intros y.
  destruct (rows1 !! y) as [r1|] eqn:E1.
  - destruct (lookup_lt_is_Some_2 rows2 y) as [r2 E2].
    { apply lookup_lt_Some in E1. lia. }
    rewrite E2. f_equal. apply list_eq. intros x.
    specialize (Hpx x y). rewrite E1, E2 in Hpx. exact Hpx.
  - symmetry. apply lookup_ge_None_2. apply lookup_ge_None_1 in E1. lia.
Qed.

Lemma in_border_mono W H bw1 bw2 x y :
  bw1 <= bw2 -> in_border W H bw1 x y = true -> in_border W H bw2 x y = true.
Proof.
  unfold in_border, in_box, top_box, bottom_box, left_box, right_box.
  rewrite !orb_true_iff, !andb_true_iff, !Z.leb_le. lia.
Qed.

(** X2. Framing an already framed image with a style whose border is at
    least as wide gives the same image as framing the original with that
    style alone; in particular framing twice with one style is the same as
    framing once. *)
Theorem add_frame_wider_frame_covers image a b fa fb :
  wf_image image = true ->
  frames !! a = Some fa -> frames !! b = Some fb ->
  frame_width fa <= frame_width fb ->
  (im ← add_frame image a; add_frame im b) = add_frame image b.
Proof.
  intros Hwf Ha Hb Hle.
  destruct (frames_options a (frames_lookup_inv _ _ Ha))
    as (fa' & rgba & Ha' & _ & Hwa & _ & Hinka).
  destruct (frames_options b (frames_lookup_inv _ _ Hb))
    as (fb' & rgbb & Hb' & _ & Hwb & _ & Hinkb).
  assert (fa' = fa) as -> by congruence. assert (fb' = fb) as -> by congruence.
  destruct (add_frame_getpixel image a fa _ Hwf Ha Hwa (Hinka (im_mode image)))
    as (outa & Houta & Hma & HWa & HHa & Hwfa & Hpxa).
  destruct (add_frame_getpixel image b fb _ Hwf Hb Hwb (Hinkb (im_mode image)))
    as (outb & Houtb & Hmb & HWb & HHb & Hwfb & Hpxb).
  destruct (add_frame_getpixel outa b fb _ Hwfa Hb Hwb (Hinkb (im_mode outa)))
    as (outab & Houtab & Hmab & HWab & HHab & Hwfab & Hpxab).
  rewrite Houta, Houtb. unbind. rewrite Houtab. f_equal.
  apply image_ext; try assumption; try congruence.
  intros x y. rewrite Hpxab, Hpxa, Hpxb, HWa, HHa, Hma.
  destruct (getpixel image x y) as [p|]; [|reflexivity]. simpl.
  destruct (in_border _ _ (frame_width fb) x y) eqn:Eb; [reflexivity|].
  destruct (in_border _ _ (frame_width fa) x y) eqn:Ea; [|reflexivity].
  rewrite (in_border_mono _ _ _ _ _ _ Hle Ea) in Eb. discriminate.
Qed.

(** X3. When the image is at most [2 * width + 1] pixels wide or high, no
    pixel is left: [add_frame] returns an image of the same size in which
    every pixel holds the frame colour. *)
Theorem add_frame_small_image_all_border image frame_style frame :
  wf_image image = true ->
  frames !! frame_style = Some frame ->
  Z.of_nat (im_width image) <= 2 * frame_width frame + 1 \/
  Z.of_nat (im_height image) <= 2 * frame_width frame + 1 ->
  exists out rgb,
    add_frame image frame_style = Return out /\
    getrgb (frame_color frame) = Return rgb /\
    im_width out = im_width image /\ im_height out = im_height image /\
    forall x y, (x < im_width image)%nat -> (y < im_height image)%nat ->
      getpixel out x y = Some (ink_of (im_mode image) rgb).
Proof.
  intros Hwf Hfr Hsmall.
  destruct (frames_options _ (frames_lookup_inv _ _ Hfr))
    as (fr & rgb & Hfr' & _ & Hbw & Hrgb & Hink).
  assert (fr = frame) as -> by congruence.
  destruct (add_frame_getpixel image frame_style frame _ Hwf Hfr Hbw
              (Hink (im_mode image)))
    as (out & Hout & _ & HW & HH & _ & Hpx).
  exists out, rgb. repeat (split; [assumption|]).
  intros x y Hx Hy. rewrite Hpx.
  destruct (getpixel_some image x y Hwf Hx Hy) as [p ->]. simpl.
  destruct (in_border _ _ (frame_width frame) x y) eqn:E; [reflexivity|].
  apply in_border_false_iff in E; [lia|assumption|assumption|lia].
Qed.

Lemma hex_digit_range c d : hex_digit c = Some d -> 0 <= d <= 15.
Proof.
  unfold hex_digit. generalize (Z.of_nat (nat_of_ascii c)). intros n.
  destruct ((48 <=? n) && (n <=? 57)) eqn:E1.
  { apply andb_true_iff in E1. rewrite !Z.leb_le in E1. intros [= <-]. lia. }
  destruct ((97 <=? n) && (n <=? 102)) eqn:E2.
  { apply andb_true_iff in E2. rewrite !Z.leb_le in E2. intros [= <-]. lia. }
  destruct ((65 <=? n) && (n <=? 70)) eqn:E3; [|discriminate].
  apply andb_true_iff in E3. rewrite !Z.leb_le in E3. intros [= <-]. lia.
Qed.

Lemma hex_pair_range hi lo v : hex_pair hi lo = Some v -> 0 <= v <= 255.
Proof.
  unfold hex_pair.
  destruct (hex_digit hi) as [h|] eqn:Eh; [|discriminate].
  destruct (hex_digit lo) as [l|] eqn:El; [|discriminate].
  apply hex_digit_range in Eh, El. simpl. intros [= <-]. lia.
Qed.

Lemma getrgb_range color r g b :
  getrgb color = Return (r, g, b) ->
  0 <= r <= 255 /\ 0 <= g <= 255 /\ 0 <= b <= 255.
Proof.
  unfold getrgb. intros H. repeat case_match; try discriminate.
  injection H as <- <- <-.
  repeat split; eapply hex_pair_range; eassumption.
Qed.

Lemma valid_pixel_ink m r g b :
  0 <= r <= 255 -> 0 <= g <= 255 -> 0 <= b <= 255 ->
  valid_pixel m (ink_of m (r, g, b)) = true.
Proof.
  intros Hr Hg Hb. unfold valid_pixel.
  destruct m; simpl; rewrite ?andb_true_iff, ?Z.leb_le; repeat split; lia.
Qed.

(** X4. If every pixel of the input holds one byte per band of its mode, so
    does every pixel of the image [add_frame] returns, and the mode is the
    input's: the ink has three bytes on RGB and four, with alpha 255, on
    RGBA. *)
Theorem add_frame_keeps_pixels_valid image frame_style out :
  wf_image image = true ->
  add_frame image frame_style = Return out ->
  (forall x y p,
     getpixel image x y = Some p -> valid_pixel (im_mode image) p = true) ->
  im_mode out = im_mode image /\
  forall x y p,
    getpixel out x y = Some p -> valid_pixel (im_mode out) p = true.
Proof.
  intros Hwf Hout Hvalid.
  assert (exists frame, frames !! frame_style = Some frame) as [frame Hfr].
  { unfold add_frame, getitem in Hout.
    destruct (frames !! frame_style); [eauto|discriminate]. }
  destruct (frames_options _ (frames_lookup_inv _ _ Hfr))
    as (fr & [[r g] b] & Hfr' & _ & Hbw & Hrgb & Hink).
  assert (fr = frame) as -> by congruence.
  destruct (add_frame_getpixel image frame_style frame _ Hwf Hfr Hbw
              (Hink (im_mode image)))
    as (out' & Hout' & Hm & _ & _ & _ & Hpx).
  assert (out' = out) as -> by congruence.
  split; [exact Hm|]. intros x y p. rewrite Hpx, Hm.
  destruct (getpixel image x y) as [q|] eqn:Eq; simpl; [|discriminate].
  destruct (in_border _ _ _ x y); intros [= <-].
  - destruct (getrgb_range _ _ _ _ Hrgb) as (Hr & Hg & Hb).
    apply valid_pixel_ink; assumption.
  - eapply Hvalid, Eq.
Qed.

(** ** Prompt builder: length and injectivity *)

Lemma prompt_shape inspiration :
  create_mandala_prompt inspiration =
  prompt_head ++ inspiration ++ prompt_mid ++ inspiration ++ prompt_tail.
Proof.
  unfold create_mandala_prompt, strip.
  set (tail_raw := prompt_tail ++ nl ++ "    ").
  assert (Htail : rstrip tail_raw = prompt_tail) by (vm_compute; reflexivity).
  assert (Hne : rstrip tail_raw <> EmptyString) by (rewrite Htail; discriminate).
  change (rstrip (prompt_head ++ inspiration ++ prompt_mid ++ inspiration ++ tail_raw) =
          prompt_head ++ inspiration ++ prompt_mid ++ inspiration ++ prompt_tail).
  destruct (rstrip_app_l inspiration tail_raw Hne) as [E1 N1].
  destruct (rstrip_app_l prompt_mid _ N1) as [E2 N2].
  destruct (rstrip_app_l inspiration _ N2) as [E3 N3].
  destruct (rstrip_app_l prompt_head _ N3) as [E4 _].
  rewrite E4, E3, E2, E1, Htail. reflexivity.
Qed.

Lemma length_append s t :
  String.length (s ++ t) = (String.length s + String.length t)%nat.
Proof.
  induction s as [|c s IH]; [reflexivity|].
  change (String c s ++ t) with (String c (s ++ t)). cbn [String.length].
  rewrite IH. reflexivity.
Qed.

Lemma append_same_length s1 t1 s2 t2 :
  s1 ++ t1 = s2 ++ t2 -> String.length s1 = String.length s2 -> s1 = s2.
Proof.
  revert s2. induction s1 as [|c s1 IH]; intros [|c2 s2] Heq Hlen;
    try discriminate; [reflexivity|].
  change (String c (s1 ++ t1) = String c2 (s2 ++ t2)) in Heq.
  injection Heq as -> Heq. injection Hlen as Hlen.
  f_equal. apply IH; assumption.
Qed.

(** X5. The prompt is 602 characters longer than twice the word: the word
    is echoed twice and nothing else in the prompt depends on it, whatever
    characters, blanks included, the word is made of. *)
Theorem create_mandala_prompt_length inspiration :
  String.length (create_mandala_prompt inspiration) =
  (2 * String.length inspiration + 602)%nat.
Proof.
  rewrite prompt_shape, !length_append.
  change (String.length prompt_head) with 63%nat.
  change (String.length prompt_mid) with 350%nat.
  change (String.length prompt_tail) with 189%nat.
  lia.
Qed.

(** X6. The prompt determines the word: two words with the same prompt are
    the same word. *)
Theorem create_mandala_prompt_inj w1 w2 :
  create_mandala_prompt w1 = create_mandala_prompt w2 -> w1 = w2.
Proof.
  intros Heq.
  assert (Hlen : String.length w1 = String.length w2).
  { apply (f_equal String.length) in Heq.
    rewrite !prompt_shape, !length_append in Heq. lia. }
  rewrite !prompt_shape in Heq.
  apply String.app_inj in Heq.
  eapply append_same_length; eassumption.
Qed.

(** ** Image provider client: malformed answers and request discipline *)

(** X7. An answer of the generation service that lacks the ["data"] key,
    whose data list is empty, or whose first entry lacks the ["url"] key
    makes [generate_mandala_image] return [None] after the error notice
    with the text of the [KeyError] or [IndexError]; no fetch is sent. *)
Theorem generate_mandala_image_malformed_response w api_key prompt response s tr :
  openai_Image_create w api_key prompt = inr response ->
  let fail msg :=
    (Return (@None Image),
     (s, (tr ++ [ImageCreate api_key "dall-e-3" prompt "1024x1024" "standard" 1;
                 StError ("Error generating image: " ++ msg)])%list)) in
  match response !! "data" with
  | None => generate_mandala_image w api_key prompt (s, tr) = fail "'data'"
  | Some [] =>
      generate_mandala_image w api_key prompt (s, tr) = fail "list index out of range"
  | Some (first :: _) =>
      first !! "url" = None ->
      generate_mandala_image w api_key prompt (s, tr) = fail "'url'"
  end.
Proof.
  intros Hresp fail. subst fail. unfold generate_mandala_image. unM.
  rewrite Hresp. simpl.
  destruct (response !! "data") as [[|first rest]|]; simpl.
  - rewrite <- app_assoc. reflexivity.
  - intros ->. simpl. rewrite <- app_assoc. reflexivity.
  - rewrite <- app_assoc. reflexivity.
Qed.

(** X8. One call sends exactly one generation request and never repeats
    it.  It fetches at most once, and only the url of the first data entry
    of a well-formed answer; the image returned is then the one decoded
    from the fetched content, or [None] when fetch or decoding fails. *)
Theorem generate_mandala_image_requests w api_key prompt s tr :
  exists r evs,
    generate_mandala_image w api_key prompt (s, tr) = (Return r, (s, (tr ++ evs)%list)) /\
    ((r = None /\
      List.filter is_request evs =
        [ImageCreate api_key "dall-e-3" prompt "1024x1024" "standard" 1])
     \/
     (exists response first rest url,
        openai_Image_create w api_key prompt = inr response /\
        response !! "data" = Some (first :: rest) /\
        first !! "url" = Some url /\
        r = fetched_image w url /\
        List.filter is_request evs =
          [ImageCreate api_key "dall-e-3" prompt "1024x1024" "standard" 1;
           HttpGet url])).
Proof.
  unfold generate_mandala_image, fetched_image. unM.
  destruct (openai_Image_create w api_key prompt) as [msg|response] eqn:Hresp; simpl.
  { eexists _, _. rewrite <- app_assoc. split; [reflexivity|]. left. split; reflexivity. }
  destruct (response !! "data") as [data|] eqn:Hdata; simpl.
  2:{ eexists _, _. rewrite <- app_assoc. split; [reflexivity|]. left. split; reflexivity. }
  destruct data as [|first rest]; simpl.
  { eexists _, _. rewrite <- app_assoc. split; [reflexivity|]. left. split; reflexivity. }
  destruct (first !! "url") as [url|] eqn:Hurl; simpl.
  2:{ eexists _, _. rewrite <- app_assoc. split; [reflexivity|]. left. split; reflexivity. }
  destruct (requests_get w url) as [msg|content] eqn:Hget; simpl.
  { eexists _, _. rewrite <- !app_assoc. split; [reflexivity|]. right.
    exists response, first, rest, url.
    repeat split; rewrite ?Hget, ?Hopen; auto. }
  destruct (Image_open w content) as [msg|img] eqn:Hopen; simpl.
  { eexists _, _. rewrite <- !app_assoc. split; [reflexivity|]. right.
    exists response, first, rest, url.
    repeat split; rewrite ?Hget, ?Hopen; auto. }
  eexists _, _. rewrite <- !app_assoc. split; [reflexivity|]. right.
  exists response, first, rest, url.
    repeat split; rewrite ?Hget, ?Hopen; auto.
Qed.

(** ** Session glue: the successful path *)

(** X9. When the services answer and the decoded image is a bitmap, the
    sidebar block stores the new image together with one framed image per
    style made from it, leaves the selected style as it was, and writes the
    success notice after the two requests. *)
Theorem successful_generation_updates_session
    w inp s tr response first rest url content img :
  attempts_generation inp = true ->
  openai_Image_create w (api_key inp) (create_mandala_prompt (inspiration inp))
    = inr response ->
  response !! "data" = Some (first :: rest) ->
  first !! "url" = Some url ->
  requests_get w url = inr content ->
  Image_open w content = inr img ->
  wf_image img = true ->
  exists d,
    framed_from img d /\
    sidebar w inp (s, tr) =
      (Return tt,
       (mkSession (Some img) d (selected_frame s),
        (tr ++ [create_event inp; HttpGet url;
                StSuccess "Mandala generated successfully!"])%list)).
Proof.
  intros Hgo Hresp Hdata Hurl Hget Hopen Hwf.
  destruct (framed_dict_options img Hwf) as (d & Hd & Hfrom).
  exists d. split; [exact Hfrom|].
  unfold sidebar. fold (attempts_generation inp). rewrite Hgo.
  unfold mbind at 1. unfold M_bind at 1.
  assert (Hgen : generate_mandala_image w (api_key inp)
                   (create_mandala_prompt (inspiration inp)) (s, tr) =
                 (Return (Some img), (s, (tr ++ [create_event inp; HttpGet url])%list))).
  { unfold generate_mandala_image. unM. rewrite Hresp. simpl.
    rewrite Hdata. simpl. rewrite Hurl. simpl. rewrite Hget. simpl.
    rewrite Hopen. simpl. rewrite <- app_assoc. reflexivity. }
  rewrite Hgen. revert Hd. generalize (framed_dict img frame_options ∅).
  intros fd ->. unM. rewrite <- app_assoc. reflexivity.
Qed.

(** ** The whole script from a reachable state *)

Lemma session_inv_lookup s img :
  session_inv s -> mandala_image s = Some img ->
  exists framed,
    add_frame img (selected_frame s) = Return framed /\
    framed_images s !! selected_frame s = Some framed.
Proof.
  intros [Hin Hinv] Himg. rewrite Himg in Hinv.
  destruct Hinv as [_ [_ Hall]]. exact (Hall _ Hin).
Qed.

(** The sidebar block from a state satisfying the invariant. *)
Lemma sidebar_from_inv w inp s tr :
  decodes_bitmaps w -> session_inv s ->
  exists s1 evs,
    sidebar w inp (s, tr) = (Return tt, (s1, (tr ++ evs)%list)) /\
    session_inv s1 /\
    selected_frame s1 = selected_frame s /\
    forallb (fun ev => negb (is_rendering ev)) evs = true /\
    (attempts_generation inp = false -> s1 = s /\ evs = []).
Proof.
  intros Hdec Hinv.
  destruct (sidebar_cases w inp s tr)
    as [[Hno Hrun]|[(Hgo & e & reqs & _ & Hreqs & _ & Hrun)
                   |(Hgo & img & url & content & Hopen & _ & Hrun)]].
  - exists s, []. rewrite app_nil_r.
    split; [exact Hrun|]. split; [exact Hinv|]. repeat split; reflexivity.
  - eexists _, _. split; [exact Hrun|]. split; [exact Hinv|].
    split; [reflexivity|]. split; [|congruence].
    rewrite forallb_app. apply andb_true_iff. split; [|reflexivity].
    rewrite forallb_forall in *. intros ev Hin. specialize (Hreqs ev Hin).
    destruct ev; try discriminate; reflexivity.
  - destruct (framed_dict_options img (Hdec _ _ Hopen)) as (d & Hd & Hfrom).
    rewrite Hd in Hrun. eexists _, _. split; [exact Hrun|].
    split; [|repeat split; congruence].
    split; [exact (proj1 Hinv)|]. simpl. split; [exact (Hdec _ _ Hopen)|exact Hfrom].
Qed.

(** X10. From a reachable state, with a decoder that returns bitmaps, a run
    of the script never ends in [KeyError] or any other error: it ends
    normally, or by the rerun that a pressed select button asks for, with
    the selection then set to that button's style. *)
Theorem run_script_ends_normally_or_reruns w inp s :
  reachable s -> decodes_bitmaps w ->
  (run_script w inp s).1 = Return tt \/
  ((run_script w inp s).1 = Raise RerunException /\
   exists j frame,
     frame_options !! j = Some frame /\ select_button inp j = true /\
     selected_frame (state_after w inp s) = frame).
Proof.
  intros Hreach Hdec. apply reachable_inv in Hreach.
  unfold state_after, run_script. rewrite script_unfold.
  destruct (sidebar_from_inv w inp s [] Hdec Hreach)
    as (s1 & evs & Hside & Hinv1 & _). rewrite Hside.
  destruct (main_content_cases w inp s1 ([] ++ evs))
    as [[_ Hrun]|[(Himg & Hmiss & _)|[(shown & _ & _ & _ & Hrun)
       |(shown & j & frame & _ & _ & Hj & Hsel & _ & Hrun)]]].
  - rewrite Hrun. left. reflexivity.
  - destruct (mandala_image s1) as [img|] eqn:E; [|congruence].
    destruct (session_inv_lookup s1 img Hinv1 E) as (framed & _ & Hlook).
    congruence.
  - rewrite Hrun. left. reflexivity.
  - rewrite Hrun. right. split; [reflexivity|]. exists j, frame. auto.
Qed.

Lemma sidebar_no_rendering w inp s tr :
  exists r s1 evs,
    sidebar w inp (s, tr) = (r, (s1, (tr ++ evs)%list)) /\
    selected_frame s1 = selected_frame s /\
    forallb (fun ev => negb (is_rendering ev)) evs = true.
Proof.
  destruct (sidebar_cases w inp s tr)
    as [[Hno Hrun]|[(Hgo & e & reqs & _ & Hreqs & _ & Hrun)
                   |(Hgo & img & url & content & _ & _ & Hrun)]].
  - exists (Return tt), s, []. rewrite app_nil_r. auto.
  - eexists _, _, _. split; [exact Hrun|]. split; [reflexivity|].
    rewrite forallb_app. apply andb_true_iff. split; [|reflexivity].
    rewrite forallb_forall in *. intros ev Hin. specialize (Hreqs ev Hin).
    destruct ev; try discriminate; reflexivity.
  - destruct (framed_dict img frame_options ∅) as [d|e];
      eexists _, _, _; (split; [exact Hrun|]); split; reflexivity.
Qed.

(** X11. Whatever the session state and the services, the PIL image a run
    shows is the entry, under the style selected when the run began, of the
    framed-image dictionary as the run leaves it, and an image is then
    stored; the caption quotes the word currently in the text box and names
    that style.  If that dictionary holds the [add_frame] results of the
    stored image and the style is one of the three, the image shown is
    [add_frame] of the stored image and that style. *)
Theorem displayed_image_is_selected_entry w inp s shown caption :
  In (StImage shown caption) (trace_of w inp s) ->
  mandala_image (state_after w inp s) <> None /\
  framed_images (state_after w inp s) !! selected_frame s = Some shown /\
  caption = caption_of inp (selected_frame s) /\
  (forall img,
     mandala_image (state_after w inp s) = Some img ->
     framed_from img (framed_images (state_after w inp s)) ->
     In (selected_frame s) frame_options ->
     add_frame img (selected_frame s) = Return shown).
Proof.
  assert (Hmain :
    In (StImage shown caption) (trace_of w inp s) ->
    mandala_image (state_after w inp s) <> None /\
    framed_images (state_after w inp s) !! selected_frame s = Some shown /\
    caption = caption_of inp (selected_frame s)).
  { unfold state_after, trace_of, run_script. rewrite script_unfold.
    destruct (sidebar_no_rendering w inp s [])
      as (r & s1 & evs & Hside & Hsel1 & Hevs). rewrite Hside.
    assert (Hnot : ~ In (StImage shown caption) ([] ++ evs)).
    { simpl. intros Hin. rewrite forallb_forall in Hevs.
      specialize (Hevs _ Hin). discriminate. }
    destruct r as [[]|e]; [|intros Hin; destruct (Hnot Hin)].
    destruct (main_content_cases w inp s1 ([] ++ evs))
      as [[_ Hrun]|[(_ & _ & Hrun)|[(shown' & Himg & Hlook & _ & Hrun)
         |(shown' & j & frame & Himg & Hlook & _ & _ & _ & Hrun)]]];
      rewrite Hrun; cbn [fst snd]; intros Hin.
    - apply in_app_or in Hin as [Hin|[Hin|[]]]; [destruct (Hnot Hin)|discriminate].
    - destruct (Hnot Hin).
    - apply in_app_or in Hin as [Hin|[[= <- <-]|[Hin|[]]]];
        [destruct (Hnot Hin)| |discriminate].
      rewrite <- Hsel1. auto.
    - apply in_app_or in Hin as [Hin|[[= <- <-]|[]]]; [destruct (Hnot Hin)|].
      rewrite <- Hsel1. auto. }
  intros Hin. destruct (Hmain Hin) as (Himg & Hlook & Hcap).
  repeat split; try assumption.
  intros img _ [_ Hall] Hsel. destruct (Hall _ Hsel) as (framed & Hadd & Hlook').
  congruence.
Qed.

(** X12. Whatever the session state, a run that writes a download link has
    shown an image before, and the link carries that very image; the run
    then ended normally and left the selection as it was. *)
Theorem download_link_carries_displayed_image w inp s body :
  In (StDownloadLink body) (trace_of w inp s) ->
  exists shown caption,
    In (StImage shown caption) (trace_of w inp s) /\
    body = get_image_download_link shown
             (download_filename (inspiration inp) (datetime_now w))
             "Download Mandala" /\
    (run_script w inp s).1 = Return tt /\
    selected_frame (state_after w inp s) = selected_frame s.
Proof.
  unfold state_after, trace_of, run_script. rewrite script_unfold.
  destruct (sidebar_summary w inp s []) as (r & s1 & evs & Hside & Hsel1 & Hmd & _).
  rewrite Hside. simpl.
  destruct r as [[]|e]; [|intros Hin; destruct (Hmd _ Hin)].
  destruct (main_content_cases w inp s1 evs)
    as [[_ Hrun]|[(_ & _ & Hrun)|[(shown & _ & _ & _ & Hrun)
       |(shown & j & frame & _ & _ & _ & _ & _ & Hrun)]]];
    rewrite Hrun; cbn [fst snd]; intros Hin.
  - apply in_app_or in Hin as [Hin|[Hin|[]]]; [destruct (Hmd _ Hin)|discriminate].
  - destruct (Hmd _ Hin).
  - apply in_app_or in Hin as [Hin|[Hin|[[= <-]|[]]]];
      [destruct (Hmd _ Hin)|discriminate|].
    exists shown, (caption_of inp (selected_frame s1)).
    split; [apply in_or_app; right; left; reflexivity|]. auto.
  - apply in_app_or in Hin as [Hin|[Hin|[]]]; [destruct (Hmd _ Hin)|discriminate].
Qed.

Lemma sidebar_idle w inp s tr :
  attempts_generation inp = false -> sidebar w inp (s, tr) = (Return tt, (s, tr)).
Proof.
  intros Hgo. unfold sidebar. fold (attempts_generation inp). rewrite Hgo. reflexivity.
Qed.

(** A run with no generation and no selection, from a state with an image. *)
Lemma idle_run w inp s img :
  session_inv s -> mandala_image s = Some img ->
  attempts_generation inp = false ->
  (forall k, (k < 3)%nat -> select_button inp k = false) ->
  exists framed,
    add_frame img (selected_frame s) = Return framed /\
    run_script w inp s =
      (Return tt,
       (s, [StImage framed (caption_of inp (selected_frame s));
            StDownloadLink
              (get_image_download_link framed
                 (download_filename (inspiration inp) (datetime_now w))
                 "Download Mandala")])).
Proof.
  intros Hinv Himg Hgo Hidle.
  destruct (session_inv_lookup s img Hinv Himg) as (framed & Hadd & Hlook).
  exists framed. split; [exact Hadd|].
  unfold run_script. rewrite script_unfold, (sidebar_idle _ _ _ _ Hgo).
  destruct (main_content_cases w inp s [])
    as [[Hnone _]|[(_ & Hmiss & _)|[(shown & _ & Hshown & _ & Hrun)
       |(shown & j & frame & _ & _ & Hj & Hsel & _ & _)]]].
  - congruence.
  - congruence.
  - rewrite Hrun. assert (shown = framed) as -> by congruence. reflexivity.
  - apply lookup_lt_Some in Hj. simpl in Hj.
    rewrite Hidle in Hsel by exact Hj. discriminate.
Qed.

(** X13. Take a state that satisfies the session invariant: one of the
    three styles is selected and the stored image is a bitmap whose three
    dictionary entries are its [add_frame] results, which is what a
    successful generation leaves.  From it, a run in which only the select
    button of a style is pressed ends by the rerun; the next run, with no
    button pressed, leaves the state alone and shows the stored image
    framed in that style, with the download link carrying the same framed
    image. *)
Theorem select_then_rerun_shows_selected_frame w1 w2 inp1 inp2 s img j frame :
  session_inv s -> mandala_image s = Some img ->
  generate_button inp1 = false ->
  frame_options !! j = Some frame -> select_button inp1 j = true ->
  (forall k, (k < j)%nat -> select_button inp1 k = false) ->
  attempts_generation inp2 = false ->
  (forall k, (k < 3)%nat -> select_button inp2 k = false) ->
  (run_script w1 inp1 s).1 = Raise RerunException /\
  exists framed,
    add_frame img frame = Return framed /\
    run_script w2 inp2 (state_after w1 inp1 s) =
      (Return tt,
       (state_after w1 inp1 s,
        [StImage framed (caption_of inp2 frame);
         StDownloadLink
           (get_image_download_link framed
              (download_filename (inspiration inp2) (datetime_now w2))
              "Download Mandala")])).
Proof.
  intros Hreach Himg Hb Hj Hpress Hfirst Hgo2 Hidle2.
  assert (Hgo1 : attempts_generation inp1 = false).
  { unfold attempts_generation. rewrite Hb. reflexivity. }
  assert (Hrun1 : run_script w1 inp1 s =
    (Raise RerunException,
     (mkSession (mandala_image s) (framed_images s) frame,
      [StImage
         (default img (framed_images s !! selected_frame s))
         (caption_of inp1 (selected_frame s))]))).
  { unfold run_script. rewrite script_unfold, (sidebar_idle _ _ _ _ Hgo1).
    destruct (session_inv_lookup s img Hreach Himg) as (framed0 & _ & Hlook).
    destruct (main_content_cases w1 inp1 s [])
      as [[Hnone _]|[(_ & Hmiss & _)|[(shown & _ & _ & Hno & _)
         |(shown & j' & frame' & _ & Hshown & Hj' & Hpress' & Hfirst' & Hrun)]]].
    - congruence.
    - congruence.
    - apply lookup_lt_Some in Hj. simpl in Hj.
      rewrite Hno in Hpress by exact Hj. discriminate.
    - rewrite Hrun, Hshown. simpl.
      assert (j' = j) as ->.
      { destruct (Nat.lt_trichotomy j' j) as [Hlt|[Heq|Hgt]]; [|exact Heq|].
        - rewrite Hfirst in Hpress' by exact Hlt. discriminate.
        - rewrite Hfirst' in Hpress by exact Hgt. discriminate. }
      assert (frame' = frame) as -> by congruence. reflexivity. }
  unfold state_after. rewrite Hrun1. cbn [fst snd].
  split; [reflexivity|].
  rewrite Himg.
  apply (idle_run w2 inp2 (mkSession (Some img) (framed_images s) frame) img);
    [|reflexivity|assumption|assumption].
  rewrite <- Himg. eapply session_inv_select; eassumption.
Qed.

(** ** Download file name: what it determines *)

Lemma append_split_same_suffix_length s1 t1 s2 t2 :
  s1 ++ t1 = s2 ++ t2 -> String.length t1 = String.length t2 ->
  s1 = s2 /\ t1 = t2.
Proof.
  intros Heq Hlen.
  assert (s1 = s2) as ->.
  { eapply append_same_length; [exact Heq|].
    apply (f_equal String.length) in Heq. rewrite !length_append in Heq. lia. }
  split; [reflexivity|]. eapply String.app_inj, Heq.
Qed.

Lemma strftime_length d : String.length (strftime d "%Y%m%d_%H%M%S") = 15%nat.
Proof. reflexivity. Qed.

Lemma strftime_inj d1 d2 :
  four_digit_clock d1 = true -> four_digit_clock d2 = true ->
  strftime d1 "%Y%m%d_%H%M%S" = strftime d2 "%Y%m%d_%H%M%S" ->
  d1 = d2.
Proof.
  unfold four_digit_clock, valid_datetime.
  rewrite !andb_true_iff, !Z.leb_le. intros H1 H2 Heq.
  destruct (strftime_fields d1) as (EY1 & Em1 & Ed1 & EH1 & EM1 & ES1).
  destruct (strftime_fields d2) as (EY2 & Em2 & Ed2 & EH2 & EM2 & ES2).
  cbv zeta in *. rewrite Heq in EY1, Em1, Ed1, EH1, EM1, ES1.
  rewrite EY2 in EY1. rewrite Em2 in Em1. rewrite Ed2 in Ed1.
  rewrite EH2 in EH1. rewrite EM2 in EM1. rewrite ES2 in ES1.
  apply (f_equal digits_value) in EY1, Em1, Ed1, EH1, EM1, ES1.
  rewrite !digits_value_zpad4 in EY1 by lia.
  rewrite !digits_value_zpad2 in Em1, Ed1, EH1, EM1, ES1 by lia.
  destruct d1, d2. simpl in *. congruence.
Qed.

(** X14. The file name determines both the word and the clock reading to
    the second: two downloads get the same name only for the same word in
    the same second. *)
Theorem download_filename_inj w1 d1 w2 d2 :
  four_digit_clock d1 = true -> four_digit_clock d2 = true ->
  download_filename w1 d1 = download_filename w2 d2 ->
  w1 = w2 /\ d1 = d2.
Proof.
  intros H1 H2 Heq. unfold download_filename in Heq.
  apply String.app_inj in Heq.
  apply append_split_same_suffix_length in Heq as [-> Heq].
  - split; [reflexivity|].
    apply String.app_inj in Heq.
    apply append_split_same_suffix_length in Heq as [Heq _]; [|reflexivity].
    apply strftime_inj; assumption.
  - rewrite !length_append, !strftime_length. reflexivity.
Qed.

(** ** Base64 payload of the download link *)

Lemma list_ind3 {A : Type} (P : list A -> Prop) :
  P [] -> (forall a, P [a]) -> (forall a b, P [a; b]) ->
  (forall a b c rest, P rest -> P (a :: b :: c :: rest)) ->
  forall l, P l.
Proof.
  intros H0 H1 H2 H3. fix IH 1.
  intros [|a [|b [|c rest]]]; [exact H0|apply H1|apply H2|apply H3, IH].
Qed.

Lemma b64_sextets :
  forallb (fun n => match b64_index (b64_char n) with
                    | Some m => m =? n
                    | None => false
                    end)
          (map Z.of_nat (seq 0 64)) = true.
Proof. vm_compute. reflexivity. Qed.

Lemma b64_index_char n : 0 <= n < 64 -> b64_index (b64_char n) = Some n.
Proof.
  intros Hn. pose proof b64_sextets as H. rewrite forallb_forall in H.
  specialize (H n). destruct (b64_index (b64_char n)) as [m|].
  - f_equal. apply Z.eqb_eq, H.
    apply in_map_iff. exists (Z.to_nat n). split; [lia|]. apply in_seq. lia.
  - discriminate H.
    apply in_map_iff. exists (Z.to_nat n). split; [lia|]. apply in_seq. lia.
Qed.

Lemma is_b64_char_char n : 0 <= n < 64 -> is_b64_char (b64_char n) = true.
Proof. intros Hn. unfold is_b64_char. rewrite b64_index_char by exact Hn. reflexivity. Qed.

Lemma b64_parse_encode bs :
  forallb is_byte bs = true -> b64_parse (b64encode bs) = Some bs.
Proof.
  induction bs as [|a|a b|a b c rest IH] using list_ind3; intros Hbs.
  - reflexivity.
  - cbn [forallb] in Hbs. cbn [b64encode b64_parse].
    rewrite !b64_index_char by sextet_bounds.
    change (b64_index "=") with (@None Z). cbn iota.
    do 2 f_equal. sextet_bounds.
  - cbn [forallb] in Hbs. cbn [b64encode b64_parse].
    rewrite !b64_index_char by sextet_bounds.
    change (b64_index "=") with (@None Z). cbn iota.
    f_equal. f_equal; [sextet_bounds|]. f_equal. sextet_bounds.
  - cbn [forallb] in Hbs. cbn [b64encode b64_parse].
    rewrite !b64_index_char by sextet_bounds.
    rewrite IH by (repeat (apply andb_true_iff in Hbs as [? Hbs]); exact Hbs).
    f_equal. f_equal; [sextet_bounds|]. f_equal; [sextet_bounds|].
    f_equal. sextet_bounds.
Qed.

Lemma b64encode_inj bs1 bs2 :
  forallb is_byte bs1 = true -> forallb is_byte bs2 = true ->
  b64encode bs1 = b64encode bs2 -> bs1 = bs2.
Proof.
  intros H1 H2 Heq. apply (f_equal b64_parse) in Heq.
  rewrite !b64_parse_encode in Heq by assumption. congruence.
Qed.

(** X15. For a list of bytes, the base64 text has four characters for
    every started group of three bytes, and each character is a letter, a
    digit, [+], [/] or the padding [=]: no quote, blank or angle bracket. *)
Theorem b64encode_length_and_alphabet bs :
  forallb is_byte bs = true ->
  Z.of_nat (String.length (b64encode bs)) = 4 * ((Z.of_nat (length bs) + 2) / 3) /\
  forallb is_b64_char (list_ascii_of_string (b64encode bs)) = true.
Proof.
  induction bs as [|a|a b|a b c rest IH] using list_ind3; intros Hbs.
  - split; reflexivity.
  - cbn [forallb] in Hbs. split; [reflexivity|].
    cbn [b64encode list_ascii_of_string forallb].
    rewrite !is_b64_char_char by sextet_bounds. reflexivity.
  - cbn [forallb] in Hbs. split; [reflexivity|].
    cbn [b64encode list_ascii_of_string forallb].
    rewrite !is_b64_char_char by sextet_bounds. reflexivity.
  - cbn [forallb] in Hbs.
    destruct IH as [IHlen IHall];
      [repeat (apply andb_true_iff in Hbs as [? Hbs]); exact Hbs|].
    split.
    + cbn [b64encode String.length length].
      rewrite !Nat2Z.inj_succ, IHlen. Z.div_mod_to_equations. lia.
    + cbn [b64encode list_ascii_of_string forallb].
      rewrite !is_b64_char_char by sextet_bounds. exact IHall.
Qed.

(** ** Download file name: order *)

Lemma ascii_compare_refl c : Ascii.compare c c = Eq.
Proof. unfold Ascii.compare. apply N.compare_refl. Qed.

Lemma ascii_compare_digit m n :
  Ascii.compare (digit m) (digit n) = (m mod 10 ?= n mod 10).
Proof.
  unfold Ascii.compare.
  rewrite N2Nat.inj_compare. fold (nat_of_ascii (digit m)) (nat_of_ascii (digit n)).
  rewrite !nat_of_digit, <- Nat2Z.inj_compare.
  pose proof (Z.mod_pos_bound m 10). pose proof (Z.mod_pos_bound n 10).
  rewrite !Nat2Z.inj_add, !Z2Nat.id by lia.
  apply Z.add_compare_mono_l.
Qed.

Lemma string_compare_same_prefix p s t :
  String.compare (p ++ s) (p ++ t) = String.compare s t.
Proof.
  induction p as [|c p IH]; [reflexivity|].
  change (String c p ++ s) with (String c (p ++ s)).
  change (String c p ++ t) with (String c (p ++ t)).
  cbn [String.compare]. rewrite ascii_compare_refl. exact IH.
Qed.

Lemma string_compare_append s1 t1 s2 t2 :
  String.length s1 = String.length s2 ->
  String.compare (s1 ++ t1) (s2 ++ t2) =
  lex (String.compare s1 s2) (String.compare t1 t2).
Proof.
  revert s2. induction s1 as [|c1 s1 IH]; intros [|c2 s2] Hlen; try discriminate.
  - reflexivity.
  - change (String c1 s1 ++ t1) with (String c1 (s1 ++ t1)).
    change (String c2 s2 ++ t2) with (String c2 (s2 ++ t2)).
    cbn [String.compare]. destruct (Ascii.compare c1 c2); try reflexivity.
    apply IH. injection Hlen as Hlen. exact Hlen.
Qed.

Lemma string_compare_zpad2 a b :
  0 <= a -> 0 <= b ->
  String.compare (zpad2 a) (zpad2 b) = (a mod 100 ?= b mod 100).
Proof.
  intros Ha Hb. unfold zpad2. cbn [String.compare].
  rewrite !ascii_compare_digit. compare_cases.
Qed.

Lemma string_compare_zpad4 a b :
  0 <= a <= 9999 -> 0 <= b <= 9999 ->
  String.compare (zpad4 a) (zpad4 b) = (a ?= b).
Proof.
  intros Ha Hb. unfold zpad4. cbn [String.compare].
  rewrite !ascii_compare_digit, string_compare_zpad2 by lia. compare_cases.
Qed.

Lemma strftime_compare d1 d2 :
  four_digit_clock d1 = true -> four_digit_clock d2 = true ->
  String.compare (strftime d1 "%Y%m%d_%H%M%S") (strftime d2 "%Y%m%d_%H%M%S")
  = datetime_compare d1 d2.
Proof.
  unfold four_digit_clock, valid_datetime.
  rewrite !andb_true_iff, !Z.leb_le. intros H1 H2.
  rewrite !strftime_chars.
  rewrite !string_compare_append by reflexivity.
  rewrite string_compare_zpad4, !string_compare_zpad2 by lia.
  rewrite !Z.mod_small by lia. reflexivity.
Qed.

(** X17. For one word, file names compare as their clock readings do:
    a download made later gets a name that sorts later, character by
    character. *)
Theorem download_filenames_sort_chronologically word d1 d2 :
  four_digit_clock d1 = true -> four_digit_clock d2 = true ->
  String.compare (download_filename word d1) (download_filename word d2)
  = datetime_compare d1 d2.
Proof.
  intros H1 H2. unfold download_filename.
  rewrite !string_compare_same_prefix.
  rewrite string_compare_append by (rewrite !strftime_length; reflexivity).
  rewrite strftime_compare by assumption.
  destruct (datetime_compare d1 d2); reflexivity.
Qed.

(** ** The generation request of a run *)

Lemma generate_mandala_image_first_event w api_key prompt s tr :
  exists r evs,
    generate_mandala_image w api_key prompt (s, tr) =
      (Return r,
       (s, (tr ++ ImageCreate api_key "dall-e-3" prompt "1024x1024" "standard" 1
                  :: evs)%list)) /\
    forallb (fun ev => negb (is_create ev)) evs = true.
Proof.
  unfold generate_mandala_image. unM.
  destruct (openai_Image_create w api_key prompt) as [msg|response]; simpl.
  { eexists _, _. rewrite <- app_assoc. split; reflexivity. }
  destruct (response !! "data") as [[|first rest]|]; simpl;
    try (eexists _, _; rewrite <- app_assoc; split; reflexivity).
  destruct (first !! "url") as [url|]; simpl;
    try (eexists _, _; rewrite <- app_assoc; split; reflexivity).
  destruct (requests_get w url) as [msg|content]; simpl;
    try (eexists _, _; rewrite <- !app_assoc; split; reflexivity).
  destruct (Image_open w content) as [msg|img]; simpl;
    eexists _, _; rewrite <- !app_assoc; split; reflexivity.
Qed.

(** X18. A run in which the trigger is pressed with a non-empty credential
    and a non-empty word, a word of blanks included, sends exactly one
    generation request; it is the first effect of the run and carries that
    credential and the prompt built from that word. *)
Theorem generation_request_sent_once w inp s :
  attempts_generation inp = true ->
  exists rest,
    trace_of w inp s = create_event inp :: rest /\
    forallb (fun ev => negb (is_create ev)) rest = true.
Proof.
  intros Hgo.
  assert (Hside : exists r s1 evs,
    sidebar w inp (s, []) = (r, (s1, create_event inp :: evs)) /\
    forallb (fun ev => negb (is_create ev)) evs = true).
  { unfold sidebar. fold (attempts_generation inp). rewrite Hgo.
    destruct (generate_mandala_image_first_event w (api_key inp)
                (create_mandala_prompt (inspiration inp)) s [])
      as (r & evs & Hgen & Hevs).
    unfold mbind at 1. unfold M_bind at 1. rewrite Hgen.
    destruct r as [img|]; [|eexists _, _, _; split; [reflexivity|exact Hevs]].
    generalize (framed_dict img frame_options ∅). intros [d|e]; unM.
    - eexists _, _, _. split; [reflexivity|].
      rewrite forallb_app, Hevs. reflexivity.
    - eexists _, _, _. split; [reflexivity|exact Hevs]. }
  destruct Hside as (r & s1 & evs & Hside & Hevs).
  unfold trace_of, run_script. rewrite script_unfold, Hside.
  destruct r as [[]|e]; [|eexists; split; [reflexivity|exact Hevs]].
  destruct (main_content_summary w inp s1 (create_event inp :: evs))
    as (r2 & s2 & evs2 & Hmain & _ & _ & _ & _ & Hdisp & _).
  rewrite Hmain. cbn [fst snd]. eexists. split; [reflexivity|].
  rewrite forallb_app, Hevs. simpl.
  rewrite forallb_forall in *. intros ev Hin. specialize (Hdisp ev Hin).
  destruct ev; try reflexivity. discriminate.
Qed.

(** ** Thumbnails and the frame table *)

(** X19. The select thumbnails are one per table style, in table order:
    the colour a thumbnail shows is the colour [add_frame] looks up for the
    style named on it, and no style of the table lacks a thumbnail. *)
Theorem thumbnails_match_frames i frame color :
  In (i, (frame, color)) thumbnails ->
  frame_options !! i = Some frame /\
  exists props rgb,
    frames !! frame = Some props /\
    frame_color props = color /\
    getrgb color = Return rgb /\
    length thumbnails = size frames.
Proof.
  intros Hin.
  assert (Hcases : (i, (frame, color)) = (0%nat, ("Classic Wood", "#8B4513")) \/
                   (i, (frame, color)) = (1%nat, ("Modern Black", "#1a1a1a")) \/
                   (i, (frame, color)) = (2%nat, ("Silver Metal", "#C0C0C0"))).
  { simpl in Hin. intuition congruence. }
  destruct Hcases as [[= -> -> ->]|[[= -> -> ->]|[= -> -> ->]]];
    (split; [reflexivity|]); eexists _, _;
    (split; [reflexivity|]); (split; [reflexivity|]);
    (split; [reflexivity|]); vm_compute; reflexivity.
Qed.

End Script.

(** * The download link with its base64 payload *)

(** X16. With the PNG bytes encoded in base64, the download link
    determines the PNG bytes: for one file name and label, two images get
    the same link only if their PNG encodings are the same. *)
Theorem download_link_determines_png
    (png : Image -> list Z) img1 img2 filename text :
  forallb is_byte (png img1) = true ->
  forallb is_byte (png img2) = true ->
  get_image_download_link (fun i => b64encode (png i)) img1 filename text
  = get_image_download_link (fun i => b64encode (png i)) img2 filename text ->
  png img1 = png img2.
Proof.
  intros H1 H2 Heq. unfold get_image_download_link in Heq.
  do 3 apply String.app_inj in Heq.
  apply append_split_same_suffix_length in Heq as [Heq _]; [|reflexivity].
  apply b64encode_inj; assumption.
Qed.

(** * Instances on sample data *)

Lemma working_world_decodes : decodes_bitmaps working_world.
Proof. intros content img [= <-]. reflexivity. Qed.

Lemma sample_state_reachable : reachable no_encoding (sample_state no_encoding).
Proof.
  unfold sample_state.
  apply reachable_run; [exact working_world_decodes|apply reachable_new].
Qed.

Lemma sample_state_image :
  mandala_image (sample_state no_encoding) = Some small_image.
Proof. vm_compute. reflexivity. Qed.

Lemma add_frame_keeps_size_and_interior_witness :
  exists out,
    add_frame sample_image "Modern Black" = Return out /\
    im_width out = 100%nat /\ im_height out = 90%nat /\
    getpixel out 50 45 = Some [255; 255; 255].
Proof.
  destruct (add_frame_keeps_size_and_interior sample_image "Modern Black")
    as (out & frame & Hfr & Hout & HW & HH & _ & _ & Hin).
  - vm_compute. reflexivity.
  - simpl. tauto.
  - exists out. repeat (split; [assumption|]).
    assert (frame = mkFrame "#1a1a1a" 30) as -> by (vm_compute in Hfr; congruence).
    destruct (Hin 50%nat 45%nat) as [_ ->]; [vm_compute; split; reflexivity..|].
    reflexivity.
Defined.

Lemma add_frame_paints_configured_color_witness :
  exists out,
    add_frame sample_image "Classic Wood" = Return out /\
    getpixel out 0 0 = Some [139; 69; 19] /\
    getpixel out 40 45 = Some [139; 69; 19] /\
    getpixel out 50 89 = Some [139; 69; 19].
Proof.
  destruct (add_frame_paints_configured_color sample_image "Classic Wood")
    as (out & frame & rgb & Hfr & _ & Hrgb & Hout & Hpaint & _ & _).
  - vm_compute. reflexivity.
  - simpl. tauto.
  - exists out. split; [assumption|].
    assert (frame = mkFrame "#8B4513" 40) as -> by (vm_compute in Hfr; congruence).
    assert (rgb = (139, 69, 19)) as -> by (vm_compute in Hrgb; congruence).
    repeat split; apply Hpaint; try (simpl; lia); vm_compute; reflexivity.
Defined.

Lemma failed_generation_keeps_session_witness :
  mandala_image
    (state_after no_encoding failing_world sample_inputs (sample_state no_encoding))
    = Some small_image /\
  exists msg,
    In (StError ("Error generating image: " ++ msg))
       (trace_of no_encoding failing_world sample_inputs (sample_state no_encoding)).
Proof.
  destruct (failed_generation_keeps_session no_encoding failing_world sample_inputs
              (sample_state no_encoding))
    as (Herr & _ & Himg & _).
  - reflexivity.
  - vm_compute. reflexivity.
  - split; [rewrite Himg; exact sample_state_image|exact Herr].
Defined.

Lemma selection_updates_selected_frame_only_witness :
  state_after no_encoding working_world select_inputs (sample_state no_encoding)
  = mkSession (mandala_image (sample_state no_encoding))
              (framed_images (sample_state no_encoding)) "Modern Black".
Proof.
  destruct (selection_updates_selected_frame_only no_encoding working_world
              select_inputs (sample_state no_encoding))
    as (_ & _ & _ & Hselect).
  apply (Hselect 1%nat "Modern Black").
  - exact sample_state_reachable.
  - rewrite sample_state_image. discriminate.
  - reflexivity.
  - reflexivity.
  - reflexivity.
  - intros [|k] Hk; [reflexivity|lia].
Defined.

Lemma download_filename_pattern_witness :
  download_filename "love" sample_clock = "mandala_love_20250309_070500.png" /\
  is_timestamp (strftime sample_clock "%Y%m%d_%H%M%S") = true.
Proof.
  pose proof (download_filename_pattern no_encoding working_world sample_inputs
                new_session eq_refl) as H.
  cbv zeta in H. destruct H as (Hname & Hts & _).
  split; [exact Hname|exact Hts].
Defined.

Lemma no_generation_without_word_and_key_witness :
  state_after no_encoding working_world keyless_inputs (sample_state no_encoding)
  = sample_state no_encoding.
Proof.
  destruct (no_generation_without_word_and_key no_encoding working_world
              keyless_inputs (sample_state no_encoding))
    as (_ & _ & _ & _ & _ & Hsame).
  - left. reflexivity.
  - apply Hsame. intros j _. reflexivity.
Defined.

(** * Instances of the further properties *)

Lemma getpixel_white_image_inv w h x y p :
  getpixel (white_image w h) x y = Some p -> p = [255; 255; 255].
Proof.
  unfold getpixel, white_image. simpl. intros H.
  match type of H with
  | ?t ≫= _ = _ => destruct t as [row|] eqn:E
  end; simpl in H; [|discriminate H].
  apply lookup_replicate in E as [-> _].
  apply lookup_replicate in H as [-> _]. reflexivity.
Qed.

Lemma add_frame_unknown_style_witness :
  add_frame sample_image "Gold Leaf" = Raise (KeyError "Gold Leaf").
Proof.
  apply (add_frame_unknown_style sample_image "Gold Leaf").
  simpl. intros [H|[H|[H|[]]]]; discriminate.
Defined.

Lemma add_frame_wider_frame_covers_witness :
  (im ← add_frame sample_image "Modern Black"; add_frame im "Classic Wood")
  = add_frame sample_image "Classic Wood".
Proof.
  apply (add_frame_wider_frame_covers sample_image "Modern Black" "Classic Wood"
           (mkFrame "#1a1a1a" 30) (mkFrame "#8B4513" 40)).
  - vm_compute. reflexivity.
  - reflexivity.
  - reflexivity.
  - simpl. lia.
Defined.

Lemma add_frame_small_image_all_border_witness :
  exists out,
    add_frame small_image "Silver Metal" = Return out /\
    getpixel out 2 1 = Some [192; 192; 192].
Proof.
  destruct (add_frame_small_image_all_border small_image "Silver Metal"
              (mkFrame "#C0C0C0" 35))
    as (out & rgb & Hout & Hrgb & _ & _ & Hall).
  - vm_compute. reflexivity.
  - reflexivity.
  - left. simpl. lia.
  - exists out. split; [exact Hout|].
    assert (rgb = (192, 192, 192)) as -> by (vm_compute in Hrgb; congruence).
    apply Hall; simpl; lia.
Defined.

Lemma add_frame_keeps_pixels_valid_witness :
  im_mode black_small = RGB /\
  exists p, getpixel black_small 1 1 = Some p /\ valid_pixel RGB p = true.
Proof.
  destruct (add_frame_keeps_pixels_valid small_image "Modern Black" black_small)
    as [Hmode Hall].
  - vm_compute. reflexivity.
  - vm_compute. reflexivity.
  - intros x y p Hp. apply getpixel_white_image_inv in Hp as ->. reflexivity.
  - split; [exact Hmode|]. exists [26; 26; 26].
    split; [vm_compute; reflexivity|].
    refine (Hall 1%nat 1%nat _ _). vm_compute. reflexivity.
Defined.

Lemma create_mandala_prompt_inj_witness : "love" = "love".
Proof. apply (create_mandala_prompt_inj "love" "love"). reflexivity. Defined.

Lemma generate_mandala_image_malformed_response_witness :
  generate_mandala_image dataless_world "sk-test" "a prompt" (new_session, [])
  = (Return None,
     (new_session,
      [ImageCreate "sk-test" "dall-e-3" "a prompt" "1024x1024" "standard" 1;
       StError "Error generating image: 'data'"])).
Proof.
  pose proof (generate_mandala_image_malformed_response dataless_world
                "sk-test" "a prompt" ∅ new_session [] eq_refl) as H.
  cbv zeta in H. rewrite lookup_empty in H. exact H.
Defined.

Lemma successful_generation_updates_session_witness :
  exists d,
    framed_from small_image d /\
    sidebar working_world sample_inputs (new_session, []) =
      (Return tt,
       (mkSession (Some small_image) d "Classic Wood",
        [create_event sample_inputs; HttpGet "https://example.org/m.png";
         StSuccess "Mandala generated successfully!"])).
Proof.
  apply (successful_generation_updates_session no_encoding working_world sample_inputs
           new_session []
           {[ "data" := [ {[ "url" := "https://example.org/m.png" ]} ] ]}
           {[ "url" := "https://example.org/m.png" ]} []
           "https://example.org/m.png" "PNG" small_image);
    reflexivity.
Defined.

Lemma run_script_ends_normally_or_reruns_witness :
  (run_script no_encoding working_world select_inputs (sample_state no_encoding)).1
    = Return tt \/
  ((run_script no_encoding working_world select_inputs (sample_state no_encoding)).1
     = Raise RerunException /\
   exists j frame,
     frame_options !! j = Some frame /\ select_button select_inputs j = true /\
     selected_frame
       (state_after no_encoding working_world select_inputs
          (sample_state no_encoding)) = frame).
Proof.
  apply (run_script_ends_normally_or_reruns no_encoding working_world
           select_inputs (sample_state no_encoding)).
  - exact sample_state_reachable.
  - exact working_world_decodes.
Defined.

Lemma displayed_image_is_selected_entry_witness :
  framed_images
    (state_after no_encoding working_world idle_inputs (sample_state no_encoding))
    !! "Classic Wood" = Some classic_small /\
  add_frame small_image "Classic Wood" = Return classic_small.
Proof.
  destruct (displayed_image_is_selected_entry no_encoding working_world
              idle_inputs (sample_state no_encoding) classic_small
              (caption_of idle_inputs "Classic Wood"))
    as (_ & Hlook & _ & Hadd).
  - vm_compute. left. reflexivity.
  - split; [exact Hlook|].
    apply (Hadd small_image).
    + vm_compute. reflexivity.
    + pose proof (reachable_inv no_encoding _
                    (reachable_run no_encoding working_world idle_inputs _
                       working_world_decodes sample_state_reachable))
        as [_ Hinv].
      assert (Himg : mandala_image
                (state_after no_encoding working_world idle_inputs
                   (sample_state no_encoding)) = Some small_image)
        by (vm_compute; reflexivity).
      rewrite Himg in Hinv. exact (proj2 Hinv).
    + simpl. tauto.
Defined.

Lemma download_link_carries_displayed_image_witness :
  exists shown caption,
    In (StImage shown caption)
       (trace_of no_encoding working_world idle_inputs (sample_state no_encoding)) /\
    get_image_download_link no_encoding classic_small
      (download_filename "calm" sample_clock) "Download Mandala"
    = get_image_download_link no_encoding shown
        (download_filename "calm" sample_clock) "Download Mandala".
Proof.
  destruct (download_link_carries_displayed_image no_encoding working_world
              idle_inputs (sample_state no_encoding)
              (get_image_download_link no_encoding classic_small
                 (download_filename "calm" sample_clock) "Download Mandala"))
    as (shown & caption & Hin & Hbody & _).
  - vm_compute. right. left. reflexivity.
  - exists shown, caption. split; [exact Hin|exact Hbody].
Defined.

Lemma select_then_rerun_shows_selected_frame_witness :
  exists framed,
    add_frame small_image "Modern Black" = Return framed /\
    (run_script no_encoding working_world idle_inputs
       (state_after no_encoding working_world select_inputs
          (sample_state no_encoding))).1 = Return tt.
Proof.
  destruct (select_then_rerun_shows_selected_frame no_encoding
              working_world working_world select_inputs idle_inputs
              (sample_state no_encoding) small_image 1 "Modern Black")
    as (_ & framed & Hadd & Hrun).
  - exact (reachable_inv no_encoding _ sample_state_reachable).
  - exact sample_state_image.
  - reflexivity.
  - reflexivity.
  - reflexivity.
  - intros [|k] Hk; [reflexivity|lia].
  - reflexivity.
  - intros k _. reflexivity.
  - exists framed. split; [exact Hadd|]. rewrite Hrun. reflexivity.
Defined.

Lemma download_filename_inj_witness :
  "love" = "love" /\ sample_clock = sample_clock.
Proof.
  apply (download_filename_inj "love" sample_clock "love" sample_clock);
    reflexivity.
Defined.

Lemma b64encode_length_and_alphabet_witness :
  Z.of_nat (String.length (b64encode [77; 97; 110; 33])) = 8 /\
  forallb is_b64_char (list_ascii_of_string (b64encode [77; 97; 110; 33])) = true.
Proof.
  apply (b64encode_length_and_alphabet [77; 97; 110; 33]). reflexivity.
Defined.

Lemma download_link_determines_png_witness :
  sample_png small_image = sample_png small_image.
Proof.
  apply (download_link_determines_png sample_png small_image small_image
           "mandala_love_20250309_070500.png" "Download Mandala");
    reflexivity.
Defined.

Lemma download_filenames_sort_chronologically_witness :
  String.compare (download_filename "love" sample_clock)
                 (download_filename "love" later_clock) = Lt.
Proof.
  rewrite (download_filenames_sort_chronologically "love" sample_clock later_clock
             eq_refl eq_refl).
  reflexivity.
Defined.

Lemma generation_request_sent_once_witness :
  exists rest,
    trace_of no_encoding working_world blank_inputs new_session
      = create_event blank_inputs :: rest /\
    forallb (fun ev => negb (is_create ev)) rest = true.
Proof.
  apply (generation_request_sent_once no_encoding working_world blank_inputs
           new_session).
  reflexivity.
Defined.

Lemma thumbnails_match_frames_witness :
  exists props,
    frames !! "Silver Metal" = Some props /\ frame_color props = "#C0C0C0".
Proof.
  destruct (thumbnails_match_frames 2 "Silver Metal" "#C0C0C0")
    as (_ & props & rgb & Hfr & Hcol & _).
  - simpl. tauto.
  - exists props. split; [exact Hfr|exact Hcol].
Defined.



